(** * Two-factor authentication component of calmora-well

    Shallow embedding of [src/src/components/2FA.tsx]: the React component
    [TwoFactor] with its handlers [checkTwoFactorStatus], [enableTwoFactor],
    [verifyAndEnable], [disableTwoFactor] and the generators
    [generateSecret], [generateQRCode], [generateBackupCodes], over the
    Supabase table [user_2fa] (columns [user_id], [secret], [is_enabled],
    [backup_codes]) modelled as a finite map keyed by [user_id]. *)

From Stdlib Require Import ZArith Ascii String.
From stdpp Require Import base gmap strings list fin_maps.

Open Scope Z_scope.

(* ------------------------------------------------------------------ *)
(** ** JavaScript runtime pieces used by the component *)

(** [Math.random()] in V8 returns the double [k / 2^52] built from 52
    random bits; a draw of the random source is that integer [k]
    (only its low 52 bits are used). *)
Definition mantissa_bits : Z := 2 ^ 52.

Definition draw_bits (k : Z) : Z := Z.land k (mantissa_bits - 1).

(** The i-th call of [Math.random()] inside one handler. *)
Definition random_stream := nat -> Z.

(** [s.charAt(i)]: the one-character string at [i], or [""] out of range. *)
Definition js_charAt (s : string) (i : Z) : string :=
  if i <? 0 then EmptyString
  else match String.get (Z.to_nat i) s with
       | Some c => String c EmptyString
       | None => EmptyString
       end.

(** [s.substring(2, 10)]: indices are clamped to the length of [s]. *)
Definition js_substring_2_10 (s : string) : string := String.substring 2 8 s.

(** [toUpperCase] on ASCII letters. *)
Definition ascii_upper (c : ascii) : ascii :=
  let n := nat_of_ascii c in
  if (97 <=? n)%nat && (n <=? 122)%nat then ascii_of_nat (n - 32) else c.

Fixpoint js_toUpperCase (s : string) : string :=
  match s with
  | EmptyString => EmptyString
  | String c s' => String (ascii_upper c) (js_toUpperCase s')
  end.

(** [Number.prototype.toString(36)] is V8's [DoubleToRadixCString]
    (src/numbers/conversions.cc).  The doubles it computes with lie in
    [0, 64) and are multiples of 2^-105; each is held exactly as an
    integer scaled by [dbl_one = 2^128]. *)
Definition dbl_scale : Z := 128.

Definition dbl_one : Z := 2 ^ dbl_scale.

(** Rounding of a non-negative scaled real to the nearest double, ties to
    even: keep 53 significant bits. *)
Definition round53 (x : Z) : Z :=
  let s := Z.log2 x + 1 - 53 in
  if s <=? 0 then x
  else
    let q := Z.shiftr x s in
    let r := x - Z.shiftl q s in
    let half := 2 ^ (s - 1) in
    if (half <? r) || ((r =? half) && Z.odd q) then Z.shiftl (q + 1) s
    else Z.shiftl q s.

(** [chars[digit]] with [chars = "0123456789abcdefghijklmnopqrstuvwxyz"]. *)
Definition digit36_char (d : Z) : ascii :=
  if d <? 10 then ascii_of_nat (Z.to_nat (48 + d))
  else ascii_of_nat (Z.to_nat (87 + d)).

(** The back trace on carry-over: the fraction digits written so far,
    last written first.  The first digit that is not [z] is incremented
    and the digits after it are dropped; when every digit is [z] the
    carry reaches the decimal point ([integer += 1]) and the boolean is
    [true]. *)
Fixpoint carry_back (buf : list Z) : list Z * bool :=
  match buf with
  | [] => ([], true)
  | d :: rest => if d + 1 <? 36 then ((d + 1) :: rest, false) else carry_back rest
  end.

(** The [do { ... } while (fraction >= delta)] loop on [fraction] and
    [delta], writing digits onto [buf] (last written first).  Returns the
    digits and whether the carry reached the integer part.  The fuel is
    the 1100 characters the buffer leaves for the fraction. *)
Fixpoint radix_fraction_loop (fuel : nat) (fraction delta : Z) (buf : list Z)
  : list Z * bool :=
  match fuel with
  | O => (buf, false)
  | S fuel' =>
      let fraction1 := round53 (fraction * 36) in
      let delta1 := round53 (delta * 36) in
      let digit := fraction1 / dbl_one in
      let fraction2 := fraction1 - digit * dbl_one in
      let buf1 := digit :: buf in
      let continue :=
        if delta1 <=? fraction2 then radix_fraction_loop fuel' fraction2 delta1 buf1
        else (buf1, false) in
      if (dbl_one / 2 <? fraction2) || ((fraction2 =? dbl_one / 2) && Z.odd digit) then
        if dbl_one <? round53 (fraction2 + delta1) then carry_back buf1
        else continue
      else continue
  end.

(** The integer digits, [do { ... } while (integer > 0)], least
    significant written first.  (The preceding loop filling zeros only
    runs for integers of 2^53 and more.) *)
Fixpoint int_digits36 (fuel : nat) (integer : Z) (acc : list Z) : list Z :=
  match fuel with
  | O => acc
  | S fuel' =>
      let remainder := integer mod 36 in
      let integer' := (integer - remainder) / 36 in
      if 0 <? integer' then int_digits36 fuel' integer' (remainder :: acc)
      else remainder :: acc
  end.

(** [Math.random().toString(36)] for the draw [k], value [k / 2^52]: the
    integer part is 0 and the fraction is the value.  [delta] is half
    the distance to the next double, [2^(e - 105)] for [2^e <= k <
    2^(e+1)]; for the value 0 it is the smallest positive double (any
    positive stand-in gives the same result, as no fraction digit is
    written).  The decimal point is written with the first fraction
    digit and removed when the carry reaches the integer part, so it is
    present exactly when fraction digits remain. *)
Definition radix36_delta (k : Z) : Z :=
  if k =? 0 then 1 else 2 ^ (dbl_scale + Z.log2 k - 105).

Definition number_toString36 (k : Z) : string :=
  let value := draw_bits k in
  let fraction := value * 2 ^ (dbl_scale - 52) in
  let delta := radix36_delta value in
  let '(buf, carried) :=
    if delta <=? fraction then radix_fraction_loop 1100 fraction delta []
    else ([], false) in
  let integer := if carried then 1 else 0 in
  String.append (string_of_list_ascii (map digit36_char (int_digits36 1100 integer [])))
    match buf with
    | [] => EmptyString
    | _ => String "." (string_of_list_ascii (map digit36_char (rev buf)))
    end.

(** [encodeURIComponent], on the UTF-8 bytes of the string: unreserved
    characters are kept, every other byte becomes [%XX]. *)
Definition uri_unreserved (c : ascii) : bool :=
  let n := nat_of_ascii c in
  ((48 <=? n) && (n <=? 57))%nat || ((65 <=? n) && (n <=? 90))%nat
  || ((97 <=? n) && (n <=? 122))%nat
  || match String.index 0 (String c EmptyString) "-_.!~*'()" with
     | Some _ => true
     | None => false
     end.

Definition hex_char (n : nat) : ascii :=
  if (n <? 10)%nat then ascii_of_nat (48 + n) else ascii_of_nat (55 + n).

Fixpoint encodeURIComponent (s : string) : string :=
  match s with
  | EmptyString => EmptyString
  | String c s' =>
      if uri_unreserved c then String c (encodeURIComponent s')
      else String "%" (String (hex_char (nat_of_ascii c / 16))
             (String (hex_char (nat_of_ascii c mod 16)) (encodeURIComponent s')))
  end.

(* ------------------------------------------------------------------ *)
(** ** Generators of the component *)

Definition secret_chars : string := "ABCDEFGHIJKLMNOPQRSTUVWXYZ234567".

(** [Math.floor(Math.random() * chars.length)]: the product by 32 is
    exact on a double, so the floor is an integer division. *)
Definition random_index (k : Z) (len : Z) : Z :=
  (draw_bits k * len) / mantissa_bits.

(** [for (let i = 0; i < n; i++) result += chars.charAt(...)] from call [i]. *)
Fixpoint generateSecret_loop (rnd : random_stream) (i n : nat) (result : string)
  : string :=
  match n with
  | O => result
  | S n' =>
      generateSecret_loop rnd (S i) n'
        (String.append result
           (js_charAt secret_chars
              (random_index (rnd i) (Z.of_nat (String.length secret_chars)))))
  end.

Definition generateSecret (rnd : random_stream) : string :=
  generateSecret_loop rnd 0 32 EmptyString.

Definition generateQRCode (email secret : string) : string :=
  let otpauth := String.append "otpauth://totp/Calmora:"
                   (String.append email
                   (String.append "?secret="
                   (String.append secret "&issuer=Calmora"))) in
  String.append "https://api.qrserver.com/v1/create-qr-code/?size=200x200&data="
    (encodeURIComponent otpauth).

(** [Math.random().toString(36).substring(2, 10).toUpperCase()]. *)
Definition backup_code (k : Z) : string :=
  js_toUpperCase (js_substring_2_10 (number_toString36 k)).

(** [for (let i = 0; i < n; i++) codes.push(code)] from call [i]. *)
Fixpoint generateBackupCodes_loop (rnd : random_stream) (i n : nat) : list string :=
  match n with
  | O => []
  | S n' => backup_code (rnd i) :: generateBackupCodes_loop rnd (S i) n'
  end.

Definition generateBackupCodes (rnd : random_stream) : list string :=
  generateBackupCodes_loop rnd 0 8.

(* ------------------------------------------------------------------ *)
(** ** The [user_2fa] table and the Supabase calls on it *)

Record tfa_row := mk_row {
  row_secret : option string;
  row_is_enabled : bool;
  row_backup_codes : option (list string)
}.

(** Outcome of one Supabase request: [{ error: null }] or an error object
    with its message.  A failed request writes nothing. *)
Inductive call_result :=
| Call_ok
| Call_error (message : string).

(** [.upsert({ user_id, secret, is_enabled: false })], keyed by [user_id]:
    the columns given are overwritten, [backup_codes] is kept on an
    existing row and null on a new one. *)
Definition db_upsert_setup (uid secret : string) (t : gmap string tfa_row)
  : gmap string tfa_row :=
  match t !! uid with
  | Some r => <[uid := mk_row (Some secret) false (row_backup_codes r)]> t
  | None => <[uid := mk_row (Some secret) false None]> t
  end.

(** [.update({ is_enabled: true, backup_codes: codes }).eq('user_id', uid)]:
    touches the row of [uid] if there is one, and nothing otherwise. *)
Definition db_update_enable (uid : string) (codes : list string)
  (t : gmap string tfa_row) : gmap string tfa_row :=
  alter (fun r => mk_row (row_secret r) true (Some codes)) uid t.

(** [.update({ is_enabled: false }).eq('user_id', uid)]. *)
Definition db_update_disable (uid : string) (t : gmap string tfa_row)
  : gmap string tfa_row :=
  alter (fun r => mk_row (row_secret r) false (row_backup_codes r)) uid t.

(** [.select('is_enabled').eq('user_id', uid).maybeSingle()]: [data]. *)
Definition db_select_is_enabled (uid : string) (t : gmap string tfa_row)
  : option bool :=
  row_is_enabled <$> t !! uid.

(* ------------------------------------------------------------------ *)
(** ** Component state, toasts and the handlers *)

(** The [useState] hooks of [TwoFactor]. *)
Record ui_state := mk_ui {
  isEnabled : bool;
  isEnabling : bool;
  isDisabling : bool;
  verificationCode : string;
  qrCodeUrl : string;
  backupCodes : list string;
  showSetup : bool;
  loading : bool
}.

Definition initial_ui : ui_state :=
  mk_ui false false false EmptyString EmptyString [] false true.

Definition setIsEnabled (b : bool) (s : ui_state) : ui_state :=
  mk_ui b (isEnabling s) (isDisabling s) (verificationCode s) (qrCodeUrl s)
    (backupCodes s) (showSetup s) (loading s).
Definition setIsEnabling (b : bool) (s : ui_state) : ui_state :=
  mk_ui (isEnabled s) b (isDisabling s) (verificationCode s) (qrCodeUrl s)
    (backupCodes s) (showSetup s) (loading s).
Definition setIsDisabling (b : bool) (s : ui_state) : ui_state :=
  mk_ui (isEnabled s) (isEnabling s) b (verificationCode s) (qrCodeUrl s)
    (backupCodes s) (showSetup s) (loading s).
Definition setVerificationCode (v : string) (s : ui_state) : ui_state :=
  mk_ui (isEnabled s) (isEnabling s) (isDisabling s) v (qrCodeUrl s)
    (backupCodes s) (showSetup s) (loading s).
Definition setQrCodeUrl (v : string) (s : ui_state) : ui_state :=
  mk_ui (isEnabled s) (isEnabling s) (isDisabling s) (verificationCode s) v
    (backupCodes s) (showSetup s) (loading s).
Definition setBackupCodes (v : list string) (s : ui_state) : ui_state :=
  mk_ui (isEnabled s) (isEnabling s) (isDisabling s) (verificationCode s)
    (qrCodeUrl s) v (showSetup s) (loading s).
Definition setShowSetup (b : bool) (s : ui_state) : ui_state :=
  mk_ui (isEnabled s) (isEnabling s) (isDisabling s) (verificationCode s)
    (qrCodeUrl s) (backupCodes s) b (loading s).
Definition setLoading (b : bool) (s : ui_state) : ui_state :=
  mk_ui (isEnabled s) (isEnabling s) (isDisabling s) (verificationCode s)
    (qrCodeUrl s) (backupCodes s) (showSetup s) b.

Inductive toast_variant := Toast_default | Toast_destructive.

Record toast := mk_toast {
  toast_kind : toast_variant;
  toast_title : string;
  toast_description : string
}.

(** Everything a handler can change: component state, the table, the
    toasts shown (newest first) and the [console.error] log. *)
Record world := mk_world {
  w_ui : ui_state;
  w_db : gmap string tfa_row;
  w_toasts : list toast;
  w_console : list string
}.

Definition modify_ui (f : ui_state -> ui_state) (w : world) : world :=
  mk_world (f (w_ui w)) (w_db w) (w_toasts w) (w_console w).
Definition set_db (t : gmap string tfa_row) (w : world) : world :=
  mk_world (w_ui w) t (w_toasts w) (w_console w).
Definition push_toast (t : toast) (w : world) : world :=
  mk_world (w_ui w) (w_db w) (t :: w_toasts w) (w_console w).
Definition console_error (msg : string) (w : world) : world :=
  mk_world (w_ui w) (w_db w) (w_toasts w) (msg :: w_console w).

(** [useAuth().user]: the signed-in user, [null] when signed out. *)
Record auth_user := mk_user { user_id : string; user_email : string }.

(** [checkTwoFactorStatus]: on an error it logs and returns, leaving
    [isEnabled] as it was; [finally] clears [loading]. *)
Definition checkTwoFactorStatus (user : option auth_user) (res : call_result)
  (w : world) : world :=
  match user with
  | None => w
  | Some u =>
      let w1 :=
        match res with
        | Call_error m =>
            console_error (String.append "Error checking 2FA status: " m) w
        | Call_ok =>
            let data := db_select_is_enabled (user_id u) (w_db w) in
            modify_ui (setIsEnabled (match data with
                                     | Some true => true
                                     | _ => false
                                     end)) w
        end in
      modify_ui (setLoading false) w1
  end.

(** [enableTwoFactor]. *)
Definition enableTwoFactor (user : option auth_user) (rnd : random_stream)
  (res : call_result) (w : world) : world :=
  match user with
  | None => w
  | Some u =>
      let w0 := modify_ui (setIsEnabling true) w in
      let secret := generateSecret rnd in
      let qrCode := generateQRCode (user_email u) secret in
      let w1 := modify_ui (fun s => setShowSetup true (setQrCodeUrl qrCode s)) w0 in
      let w2 :=
        match res with
        | Call_ok =>
            push_toast (mk_toast Toast_default "Setup started"
                          "Scan the QR code with your authenticator app")
              (set_db (db_upsert_setup (user_id u) secret (w_db w1)) w1)
        | Call_error m =>
            push_toast (mk_toast Toast_destructive "Setup failed" m) w1
        end in
      modify_ui (setIsEnabling false) w2
  end.

(** [/^\d+$/.test(s)]. *)
Definition is_digit (c : ascii) : bool :=
  let n := nat_of_ascii c in ((48 <=? n) && (n <=? 57))%nat.

Definition all_digits (s : string) : bool :=
  match s with
  | EmptyString => false
  | _ => forallb is_digit (list_ascii_of_string s)
  end.

Definition invalid_code_message : string := "Please enter a valid 6-digit code".

(** [verifyAndEnable]: the code is only checked for its shape. *)
Definition verifyAndEnable (user : option auth_user) (rnd : random_stream)
  (res : call_result) (w : world) : world :=
  match user with
  | None => w
  | Some u =>
      let code := verificationCode (w_ui w) in
      if String.eqb code EmptyString then w
      else if negb (Nat.eqb (String.length code) 6) || negb (all_digits code) then
        push_toast (mk_toast Toast_destructive "Verification failed"
                      invalid_code_message) w
      else
        let codes := generateBackupCodes rnd in
        match res with
        | Call_error m =>
            push_toast (mk_toast Toast_destructive "Verification failed" m) w
        | Call_ok =>
            let w1 := set_db (db_update_enable (user_id u) codes (w_db w)) w in
            let w2 := modify_ui (fun s => setVerificationCode EmptyString
                                  (setShowSetup false
                                  (setBackupCodes codes (setIsEnabled true s)))) w1 in
            push_toast (mk_toast Toast_default "2FA enabled successfully!"
              "Your account is now more secure. Save your backup codes.") w2
        end
  end.

(** [disableTwoFactor]. *)
Definition disableTwoFactor (user : option auth_user) (res : call_result)
  (w : world) : world :=
  match user with
  | None => w
  | Some u =>
      let w0 := modify_ui (setIsDisabling true) w in
      let w1 :=
        match res with
        | Call_ok =>
            let w' := set_db (db_update_disable (user_id u) (w_db w0)) w0 in
            let w'' := modify_ui (fun s => setBackupCodes [] (setIsEnabled false s)) w' in
            push_toast (mk_toast Toast_default "2FA disabled"
              "Two-factor authentication has been disabled for your account") w''
        | Call_error m =>
            push_toast (mk_toast Toast_destructive "Failed to disable 2FA" m) w0
        end in
      modify_ui (setIsDisabling false) w1
  end.

(** The input's [onChange]: [value.replace(/\D/g, '').slice(0, 6)]. *)
Definition onVerificationInput (value : string) (w : world) : world :=
  let digits := string_of_list_ascii (filter is_digit (list_ascii_of_string value)) in
  modify_ui (setVerificationCode (String.substring 0 6 digits)) w.

(** The Cancel button: [setShowSetup(false)]. *)
Definition onCancelSetup (w : world) : world := modify_ui (setShowSetup false) w.

(** One user action on the component, with whatever the random source
    and the backend answer. *)
Inductive tfa_step : world -> world -> Prop :=
| step_check user res w : tfa_step w (checkTwoFactorStatus user res w)
| step_enable user rnd res w : tfa_step w (enableTwoFactor user rnd res w)
| step_verify user rnd res w : tfa_step w (verifyAndEnable user rnd res w)
| step_disable user res w : tfa_step w (disableTwoFactor user res w)
| step_input value w : tfa_step w (onVerificationInput value w)
| step_cancel w : tfa_step w (onCancelSetup w).

(** States reached from a fresh mount over an empty [user_2fa] table. *)
Definition initial_world : world := mk_world initial_ui ∅ [] [].

Inductive reachable : world -> Prop :=
| reach_init : reachable initial_world
| reach_step w w' : reachable w -> tfa_step w w' -> reachable w'.

(* ------------------------------------------------------------------ *)
(** ** The states named by the design document *)

Inductive tfa_state := Disabled | PendingVerification | Enabled.

(** Modelled from the spec's words (section 4.3, [checkStatus]), to be
    compared with what [checkTwoFactorStatus] reports: no record or a
    null secret is [Disabled], a secret with [is_enabled = false] is
    [PendingVerification], [is_enabled = true] is [Enabled]. *)
Definition spec_state_of_record (r : option tfa_row) : tfa_state :=
  match r with
  | None => Disabled
  | Some r =>
      match row_secret r with
      | None => Disabled
      | Some _ => if row_is_enabled r then Enabled else PendingVerification
      end
  end.

(** Whether the stored row turns on protection. *)
Definition row_enabled (r : option tfa_row) : bool :=
  match r with
  | Some r => row_is_enabled r
  | None => false
  end.

(** The record invariant of the design document: an enabled row has a
    secret and a non-empty list of backup codes. *)
Definition row_inv (r : tfa_row) : Prop :=
  row_is_enabled r = true ->
  row_secret r <> None /\ exists c cs, row_backup_codes r = Some (c :: cs).

Definition table_inv (t : gmap string tfa_row) : Prop :=
  map_Forall (fun _ r => row_inv r) t.

(** The shape of a 6-digit code as [verifyAndEnable] tests it. *)
Definition six_digit_code (s : string) : bool :=
  Nat.eqb (String.length s) 6 && all_digits s.

(** Characters [0-9] and [A-Z]. *)
Definition is_code_char (c : ascii) : bool :=
  is_digit c || (let n := nat_of_ascii c in (65 <=? n) && (n <=? 90))%nat.

(** The toast [verifyAndEnable] shows on success. *)
Definition enabled_toast : toast :=
  mk_toast Toast_default "2FA enabled successfully!"
    "Your account is now more secure. Save your backup codes.".

(** Every stored row has a secret (rows are only created by the setup
    upsert), and enabled rows satisfy [row_inv]. *)
Definition table_inv_strong (t : gmap string tfa_row) : Prop :=
  map_Forall (fun _ r => row_secret r <> None /\ row_inv r) t.

(* ------------------------------------------------------------------ *)
(** ** Concrete scenarios *)

Definition demo_user : auth_user := mk_user "u1" "u1@example.com".

Definition demo_secret : string := "JBSWY3DPEHPK3PXPJBSWY3DPEHPK3PXP".

(** A row left by [enableTwoFactor] and not yet verified. *)
Definition pending_row : tfa_row := mk_row (Some demo_secret) false None.

(** A verified row. *)
Definition enabled_row : tfa_row := mk_row (Some demo_secret) true (Some ["A1B2C3D4"]).

(** The component with the setup form open and [c] typed in. *)
Definition code_ui (c : string) : ui_state :=
  setShowSetup true (setVerificationCode c initial_ui).

Definition world_with (s : ui_state) (r : option tfa_row) : world :=
  mk_world s (match r with
              | Some r => {[ "u1" := r ]}
              | None => ∅
              end) [] [].

(** A random source whose every draw is 1/2 (the double [2^51 / 2^52]). *)
Definition half_stream : random_stream := fun _ => 2 ^ 51.

(** A random source with pairwise different draws. *)
Definition step_stream : random_stream := fun i => Z.of_nat i * 987654321987.

(* ------------------------------------------------------------------ *)
(** ** Copying the backup codes and reading the results back *)

Definition newline : string := String (ascii_of_nat 10) EmptyString.

(** [Array.prototype.join(sep)]. *)
Fixpoint js_join (sep : string) (l : list string) : string :=
  match l with
  | [] => EmptyString
  | [x] => x
  | x :: l' => String.append x (String.append sep (js_join sep l'))
  end.

Definition copied_toast : toast :=
  mk_toast Toast_default "Backup codes copied" "Store these codes in a safe place".

(** [copyBackupCodes]: the text handed to [navigator.clipboard.writeText]
    and the world after the toast. *)
Definition copyBackupCodes (w : world) : string * world :=
  let codesText := js_join newline (backupCodes (w_ui w)) in
  (codesText, push_toast copied_toast w).

(** Splitting a text on a separator character, keeping empty fields
    ([text.split(c)]); used to read the copied text back. *)
Fixpoint split_on (c : ascii) (s : string) : list string :=
  match s with
  | EmptyString => [EmptyString]
  | String x s' =>
      if Ascii.eqb x c then EmptyString :: split_on c s'
      else match split_on c s' with
           | h :: t => String x h :: t
           | [] => [String x EmptyString]
           end
  end.

(** Characters of the secret alphabet [A-Z2-7]. *)
Definition is_secret_char (c : ascii) : bool :=
  let n := nat_of_ascii c in
  ((65 <=? n) && (n <=? 90))%nat || ((50 <=? n) && (n <=? 55))%nat.

(** Value of an upper-case hexadecimal digit. *)
Definition hex_val (c : ascii) : nat :=
  let n := nat_of_ascii c in
  if (n <=? 57)%nat then n - 48 else n - 55.

(** Percent-decoding ([decodeURIComponent] on the bytes), the reading of
    the [data] parameter by the QR service. *)
Fixpoint uri_decode (s : string) : string :=
  match s with
  | EmptyString => EmptyString
  | String c rest =>
      if Ascii.eqb c "%" then
        match rest with
        | String h (String l rest') =>
            String (ascii_of_nat (hex_val h * 16 + hex_val l)) (uri_decode rest')
        | _ => s
        end
      else String c (uri_decode rest)
  end.

(** Characters that may appear in an encoded query value. *)
Definition query_safe (c : ascii) : bool := uri_unreserved c || Ascii.eqb c "%".

(** [s] does not contain the character [c]. *)
Definition no_char (c : ascii) (s : string) : bool :=
  forallb (fun x => negb (Ascii.eqb x c)) (list_ascii_of_string s).

(** What the component state always satisfies between handlers. *)
Definition ui_ok (s : ui_state) : Prop :=
  isEnabling s = false /\ isDisabling s = false
  /\ (String.length (verificationCode s) <= 6)%nat
  /\ forallb is_digit (list_ascii_of_string (verificationCode s)) = true
  /\ (backupCodes s = [] \/ length (backupCodes s) = 8%nat).

(** The fractions the loop meets: multiples of [2^-52] in [0, 1). *)
Definition frac_ok (fraction : Z) : Prop :=
  0 <= fraction < dbl_one /\ (2 ^ 76 | fraction).

(** While only [z] digits have been written, [1 - fraction] stays well
    above [delta]: at least [2^-52] above it, or [1.5 * 2^-53] above it
    while [delta] is at most [2^-54] (the state before the first digit). *)
Definition all_z_ok (fraction delta : Z) : Prop :=
  frac_ok fraction /\ 0 <= delta <= fraction
  /\ ((delta <= 2 ^ 74 /\ delta + 3 * 2 ^ 74 <= dbl_one - fraction)
      \/ delta + 2 ^ 76 <= dbl_one - fraction).

(* ================================================================== *)
(** * Lemmas *)

(** ** Generators *)

Lemma draw_bits_range (k : Z) : 0 <= draw_bits k < mantissa_bits.
Proof.
  unfold draw_bits, mantissa_bits.
  replace (2 ^ 52 - 1) with (Z.ones 52) by reflexivity.
  rewrite Z.land_ones by lia.
  apply Z.mod_pos_bound; lia.
Qed.

Lemma digit36_upper_code_char (d : Z) :
  0 <= d < 36 -> is_code_char (ascii_upper (digit36_char d)) = true.
Proof.
  intros Hd.
  assert (Hall : forallb (fun n => is_code_char (ascii_upper (digit36_char (Z.of_nat n))))
                   (seq 0 36) = true) by reflexivity.
  rewrite forallb_forall in Hall.
  specialize (Hall (Z.to_nat d)).
  rewrite Z2Nat.id in Hall by lia.
  apply Hall, in_seq; lia.
Qed.

Lemma js_toUpperCase_chars (s : string) :
  list_ascii_of_string (js_toUpperCase s) = map ascii_upper (list_ascii_of_string s).
Proof. induction s as [|c s IH]; simpl; congruence. Qed.

Lemma substring0_chars (m : nat) (l : list ascii) :
  list_ascii_of_string (String.substring 0 m (string_of_list_ascii l)) = firstn m l.
Proof.
  revert l; induction m as [|m IH]; intros [|c l]; simpl; try reflexivity.
  f_equal; apply IH.
Qed.

Lemma string_length_chars (s : string) :
  String.length s = length (list_ascii_of_string s).
Proof. induction s as [|c s IH]; simpl; congruence. Qed.

Lemma Forall_firstn_of {A} (P : A -> Prop) (n : nat) (l : list A) :
  Forall P l -> Forall P (firstn n l).
Proof.
  revert l; induction n as [|n IH]; intros [|x l] H; simpl; try constructor.
  - inversion H; assumption.
  - inversion H; subst; apply IH; assumption.
Qed.

(** ** Printing a random value in base 36 *)

Lemma round53_cases (x s : Z) :
  s = Z.log2 x + 1 - 53 -> 0 < s ->
  (round53 x = (x / 2 ^ s + 1) * 2 ^ s /\ 2 ^ (s - 1) <= x mod 2 ^ s)
  \/ (round53 x = x / 2 ^ s * 2 ^ s /\ x mod 2 ^ s <= 2 ^ (s - 1)).
Proof.
  intros Es Hs.
  unfold round53; rewrite <- Es.
  destruct (Z.leb_spec s 0) as [Hle|_]; [lia|].
  rewrite Z.shiftr_div_pow2 by lia.
  rewrite !Z.shiftl_mul_pow2 by lia.
  assert (Hr : x - x / 2 ^ s * 2 ^ s = x mod 2 ^ s).
  { rewrite (Z.mod_eq x (2 ^ s)) by (apply Z.pow_nonzero; lia); lia. }
  rewrite Hr.
  destruct (Z.ltb_spec (2 ^ (s - 1)) (x mod 2 ^ s)) as [Hlt|Hge]; cbn [orb].
  - left; split; [reflexivity | lia].
  - destruct (Z.eqb_spec (x mod 2 ^ s) (2 ^ (s - 1))) as [Heq|Hne]; cbn [andb].
    + destruct (Z.odd (x / 2 ^ s)); [left | right]; split; (reflexivity || lia).
    + right; split; [reflexivity | lia].
Qed.

(** Rounding to a double moves a value below [2^b] by at most [2^(b-54)]. *)
Lemma round53_err (x b : Z) :
  0 <= x -> x < 2 ^ b -> 54 <= b ->
  x - 2 ^ (b - 54) <= round53 x <= x + 2 ^ (b - 54).
Proof.
  intros Hx Hb Hb54.
  assert (Hp : 0 < 2 ^ (b - 54)) by (apply Z.pow_pos_nonneg; lia).
  destruct (Z_lt_le_dec 0 (Z.log2 x + 1 - 53)) as [Hs|Hs].
  2:{ unfold round53; destruct (Z.leb_spec (Z.log2 x + 1 - 53) 0); lia. }
  assert (Hxpos : 0 < x).
  { destruct (Z.eq_dec x 0) as [->|]; [cbn in Hs; lia | lia]. }
  assert (Hlog : Z.log2 x < b) by (apply Z.log2_lt_pow2; lia).
  remember (Z.log2 x + 1 - 53) as s eqn:Es.
  assert (Hhalf : 2 ^ (s - 1) <= 2 ^ (b - 54)) by (apply Z.pow_le_mono_r; lia).
  assert (H2s : 2 ^ s = 2 * 2 ^ (s - 1)).
  { replace s with (Z.succ (s - 1)) at 1 by lia; apply Z.pow_succ_r; lia. }
  assert (Hdm : x = x / 2 ^ s * 2 ^ s + x mod 2 ^ s).
  { rewrite Z.mul_comm; apply Z.div_mod; lia. }
  pose proof (Z.mod_pos_bound x (2 ^ s) ltac:(lia)).
  destruct (round53_cases x s Es ltac:(lia)) as [[-> Hr] | [-> Hr]]; nia.
Qed.

Lemma round53_nonneg (x : Z) : 0 <= x -> 0 <= round53 x.
Proof.
  intros Hx.
  destruct (Z_lt_le_dec 0 (Z.log2 x + 1 - 53)) as [Hs|Hs].
  2:{ unfold round53; destruct (Z.leb_spec (Z.log2 x + 1 - 53) 0); lia. }
  pose proof (Z.pow_pos_nonneg 2 (Z.log2 x + 1 - 53) ltac:(lia) ltac:(lia)).
  pose proof (Z.div_pos x (2 ^ (Z.log2 x + 1 - 53)) Hx ltac:(lia)).
  destruct (round53_cases x _ eq_refl Hs) as [[-> _] | [-> _]]; nia.
Qed.

(** Rounding keeps a value a multiple of [2^a]. *)
Lemma round53_divide (a x : Z) :
  0 <= a -> 0 <= x -> (2 ^ a | x) -> (2 ^ a | round53 x).
Proof.
  intros Ha Hx Hd.
  destruct (Z_lt_le_dec 0 (Z.log2 x + 1 - 53)) as [Hs|Hs].
  2:{ unfold round53; destruct (Z.leb_spec (Z.log2 x + 1 - 53) 0); [exact Hd | lia]. }
  remember (Z.log2 x + 1 - 53) as s eqn:Es.
  pose proof (round53_cases x s Es Hs) as Hc.
  destruct (Z_le_gt_dec a s) as [Has|Has].
  - assert (Hd' : (2 ^ a | 2 ^ s)).
    { exists (2 ^ (s - a)); rewrite <- Z.pow_add_r by lia; f_equal; lia. }
    destruct Hc as [[-> _] | [-> _]];
      apply Z.divide_mul_r; exact Hd'.
  - assert (Hm : x mod 2 ^ s = 0).
    { apply Z.mod_divide; [apply Z.pow_nonzero; lia|].
      eapply Z.divide_trans; [|exact Hd].
      exists (2 ^ (a - s)); rewrite <- Z.pow_add_r by lia; f_equal; lia. }
    assert (Hh : 0 < 2 ^ (s - 1)) by (apply Z.pow_pos_nonneg; lia).
    destruct Hc as [[-> Hr] | [-> _]]; [lia|].
    rewrite Z.mul_comm, <- (Z.add_0_r (2 ^ s * _)), <- Hm, <- Z.div_mod
      by (apply Z.pow_nonzero; lia).
    exact Hd.
Qed.

(** One step of the digit loop: the digit is one of the 36, and the new
    fraction is again a multiple of [2^-52] in [0, 1). *)
Lemma radix_step_ok (fraction : Z) :
  frac_ok fraction ->
  let fraction1 := round53 (fraction * 36) in
  let digit := fraction1 / dbl_one in
  0 <= digit < 36 /\ frac_ok (fraction1 - digit * dbl_one)
  /\ fraction * 36 - 2 ^ 80 <= fraction1 <= fraction * 36 + 2 ^ 80.
Proof.
  intros [[H0 H1] [m Hm]]; cbv zeta.
  unfold frac_ok, dbl_one, dbl_scale in *.
  remember (round53 (fraction * 36)) as fraction1 eqn:Ef.
  remember (fraction1 / 2 ^ 128) as digit eqn:Ed.
  assert (He : fraction * 36 - 2 ^ 80 <= fraction1 <= fraction * 36 + 2 ^ 80).
  { subst fraction1; apply (round53_err _ 134); lia. }
  assert (Hn : 0 <= fraction1) by (subst fraction1; apply round53_nonneg; lia).
  assert (Hm36 : m < 2 ^ 52) by lia.
  split; [|split; [|exact He]].
  - subst digit; split; [apply Z.div_pos; lia|].
    apply Z.div_lt_upper_bound; lia.
  - assert (Hmod : fraction1 - digit * 2 ^ 128 = fraction1 mod 2 ^ 128).
    { subst digit; rewrite Z.mod_eq by lia; lia. }
    split.
    + rewrite Hmod; apply Z.mod_pos_bound; lia.
    + apply Z.divide_sub_r.
      * subst fraction1; apply round53_divide; [lia | lia |].
        exists (m * 36); lia.
      * exists (digit * 2 ^ 52); lia.
Qed.

Lemma carry_back_range (buf : list Z) :
  Forall (fun d => 0 <= d < 36) buf -> Forall (fun d => 0 <= d < 36) (fst (carry_back buf)).
Proof.
  induction 1 as [|d rest Hd Hrest IH]; simpl; [constructor|].
  destruct (Z.ltb_spec (d + 1) 36); simpl; [constructor; [lia | exact Hrest] | exact IH].
Qed.

(** Every digit the loop writes is one of the 36. *)
Lemma radix_fraction_loop_range (fuel : nat) (fraction delta : Z) (buf : list Z) :
  frac_ok fraction -> Forall (fun d => 0 <= d < 36) buf ->
  Forall (fun d => 0 <= d < 36) (fst (radix_fraction_loop fuel fraction delta buf)).
Proof.
  revert fraction delta buf.
  induction fuel as [|fuel IH]; intros fraction delta buf Hf Hb; [exact Hb|].
  cbn [radix_fraction_loop]; cbv zeta.
  destruct (radix_step_ok fraction Hf) as [Hd [Hf2 _]]; cbv zeta in Hd, Hf2.
  assert (Hb1 : Forall (fun d => 0 <= d < 36)
                  (round53 (fraction * 36) / dbl_one :: buf)) by (constructor; assumption).
  repeat match goal with |- context [if ?c then _ else _] => destruct c end;
    first [apply carry_back_range; exact Hb1 | exact Hb1 | apply IH; assumption].
Qed.

Lemma carry_back_nil (buf : list Z) :
  fst (carry_back buf) = [] -> snd (carry_back buf) = true.
Proof.
  induction buf as [|d rest IH]; simpl; [reflexivity|].
  destruct (d + 1 <? 36); simpl; [discriminate | exact IH].
Qed.

(** The loop ends with no digit only when the carry reached the integer
    part (or when it never ran). *)
Lemma radix_fraction_loop_nil (fuel : nat) (fraction delta : Z) (buf : list Z) :
  fst (radix_fraction_loop fuel fraction delta buf) = [] ->
  snd (radix_fraction_loop fuel fraction delta buf) = true \/ (fuel = 0%nat /\ buf = []).
Proof.
  revert fraction delta buf.
  induction fuel as [|fuel IH]; intros fraction delta buf; [simpl; right; split; auto|].
  cbn [radix_fraction_loop]; cbv zeta.
  repeat match goal with |- context [if ?c then _ else _] => destruct c end;
    try (intros H; left; apply carry_back_nil, H);
    try (simpl; discriminate);
    (intros H; destruct (IH _ _ _ H) as [Hc | [_ Hn]]; [left; exact Hc | discriminate]).
Qed.

Lemma carry_back_stops (buf : list Z) :
  Forall (fun d => 0 <= d < 36) buf -> Exists (fun d => d <> 35) buf ->
  snd (carry_back buf) = false.
Proof.
  induction 1 as [|d rest Hd Hrest IH]; intros He; [inversion He|].
  simpl; destruct (Z.ltb_spec (d + 1) 36); [reflexivity|].
  apply IH; inversion He; subst; [lia | assumption].
Qed.

(** Once a digit other than [z] is written, no carry reaches the integer
    part. *)
Lemma radix_fraction_loop_stops (fuel : nat) (fraction delta : Z) (buf : list Z) :
  frac_ok fraction -> Forall (fun d => 0 <= d < 36) buf -> Exists (fun d => d <> 35) buf ->
  snd (radix_fraction_loop fuel fraction delta buf) = false.
Proof.
  revert fraction delta buf.
  induction fuel as [|fuel IH]; intros fraction delta buf Hf Hb He; [reflexivity|].
  cbn [radix_fraction_loop]; cbv zeta.
  destruct (radix_step_ok fraction Hf) as [Hd [Hf2 _]]; cbv zeta in Hd, Hf2.
  assert (Hb1 : Forall (fun d => 0 <= d < 36)
                  (round53 (fraction * 36) / dbl_one :: buf)) by (constructor; assumption).
  assert (He1 : Exists (fun d => d <> 35) (round53 (fraction * 36) / dbl_one :: buf))
    by (apply Exists_cons_tl; exact He).
  repeat match goal with |- context [if ?c then _ else _] => destruct c end;
    first [apply carry_back_stops; assumption | reflexivity | apply IH; assumption].
Qed.

(** The carry never reaches the integer part. *)
Lemma radix_fraction_loop_no_carry (fuel : nat) (fraction delta : Z) (buf : list Z) :
  all_z_ok fraction delta -> Forall (fun d => d = 35) buf ->
  snd (radix_fraction_loop fuel fraction delta buf) = false.
Proof.
  revert fraction delta buf.
  induction fuel as [|fuel IH]; intros fraction delta buf Hok Hz; [reflexivity|].
  cbn [radix_fraction_loop]; cbv zeta.
  destruct Hok as [Hf [Hd Hcase]].
  destruct (radix_step_ok fraction Hf) as [Hdig [Hf2 He]]; cbv zeta in Hdig, Hf2, He.
  assert (Hbz : Forall (fun d => 0 <= d < 36) buf).
  { eapply List.Forall_impl; [|exact Hz]; intros d Hd'; simpl in Hd'; lia. }
  remember (round53 (fraction * 36)) as f1 eqn:Ef1.
  remember (f1 / dbl_one) as digit eqn:Edig.
  destruct (Z.eq_dec digit 35) as [H35|H35].
  - remember (round53 (delta * 36)) as delta1 eqn:Ed1.
    assert (HD1 : 0 <= delta1 /\ delta1 + 2 ^ 76 <= dbl_one - (f1 - digit * dbl_one)).
    { split; [subst delta1; apply round53_nonneg; lia|].
      rewrite H35; unfold frac_ok, dbl_one, dbl_scale in *.
      destruct Hcase as [[Hs Hgap] | Hgap].
      - assert (Hr : delta * 36 - 2 ^ 26 <= delta1 <= delta * 36 + 2 ^ 26).
        { subst delta1; apply (round53_err _ 80); lia. }
        lia.
      - assert (Hr : delta * 36 - 2 ^ 80 <= delta1 <= delta * 36 + 2 ^ 80).
        { subst delta1; apply (round53_err _ 134); lia. }
        lia. }
    assert (Hnc : (dbl_one <? round53 (f1 - digit * dbl_one + delta1)) = false).
    { apply Z.ltb_ge.
      unfold frac_ok, dbl_one, dbl_scale in *.
      assert (Hr : f1 - digit * 2 ^ 128 + delta1 - 2 ^ 74
                   <= round53 (f1 - digit * 2 ^ 128 + delta1)
                   <= f1 - digit * 2 ^ 128 + delta1 + 2 ^ 74).
      { apply (round53_err _ 128); lia. }
      lia. }
    rewrite Hnc.
    assert (Hz1 : Forall (fun d => d = 35) (digit :: buf)) by (constructor; assumption).
    repeat match goal with |- context [if ?c then _ else _] => destruct c eqn:? end;
      try reflexivity;
      (apply IH; [| exact Hz1];
       split; [exact Hf2 | split; [split; [lia | apply Z.leb_le; assumption] | right; lia]]).
  - assert (Hb1 : Forall (fun d => 0 <= d < 36) (digit :: buf)) by (constructor; assumption).
    assert (He1 : Exists (fun d => d <> 35) (digit :: buf)) by (apply Exists_cons_hd; exact H35).
    repeat match goal with |- context [if ?c then _ else _] => destruct c end;
      first [apply carry_back_stops; assumption | reflexivity
            | apply radix_fraction_loop_stops; assumption].
Qed.

(** Rounding loses less than [2^-53] of the value. *)
Lemma round53_rel (x : Z) : 0 <= x -> 2 ^ 53 * (x - round53 x) <= x.
Proof.
  intros Hx.
  destruct (Z_lt_le_dec 0 (Z.log2 x + 1 - 53)) as [Hs|Hs].
  2:{ unfold round53; destruct (Z.leb_spec (Z.log2 x + 1 - 53) 0); [|lia].
      rewrite Z.sub_diag; lia. }
  assert (Hxpos : 0 < x).
  { destruct (Z.eq_dec x 0) as [->|]; [cbn in Hs; lia | lia]. }
  destruct (Z.log2_spec x Hxpos) as [Hlo Hhi].
  rewrite <- Z.add_1_r, Z.pow_add_r in Hhi by (try apply Z.log2_nonneg; lia).
  pose proof (round53_err x (Z.log2 x + 1) ltac:(lia) ltac:(rewrite Z.pow_add_r by lia; lia)
                ltac:(lia)) as He.
  replace (Z.log2 x + 1 - 54) with (Z.log2 x - 53) in He by lia.
  assert (Hp : 2 ^ Z.log2 x = 2 ^ 53 * 2 ^ (Z.log2 x - 53)).
  { rewrite <- Z.pow_add_r by lia; f_equal; lia. }
  nia.
Qed.

(** [delta] grows at least 35-fold per round while [fraction] stays below
    1, so once [35^m * delta >= 1] the loop ends within [m + 1] rounds
    whatever fuel remains. *)
Lemma radix_fraction_loop_fuel (m a : nat) (fraction delta : Z) (buf : list Z) :
  frac_ok fraction -> 0 < delta -> dbl_one <= 35 ^ Z.of_nat m * delta ->
  radix_fraction_loop (S m + a) fraction delta buf
  = radix_fraction_loop (S m) fraction delta buf.
Proof.
  revert fraction delta buf.
  induction m as [|m IH]; intros fraction delta buf Hf Hd Hb.
  - cbn [Nat.add radix_fraction_loop]; cbv zeta.
    destruct (radix_step_ok fraction Hf) as [_ [Hf2 _]]; cbv zeta in Hf2.
    pose proof (round53_rel (delta * 36) ltac:(lia)) as Hr.
    assert (Hlt : (round53 (delta * 36)
                   <=? round53 (fraction * 36) - round53 (fraction * 36) / dbl_one * dbl_one)
                  = false).
    { apply Z.leb_gt; unfold frac_ok in Hf2; cbn in Hb; lia. }
    rewrite Hlt; reflexivity.
  - change (S (S m) + a)%nat with (S (S m + a)).
    cbn [radix_fraction_loop]; cbv zeta.
    destruct (radix_step_ok fraction Hf) as [_ [Hf2 _]]; cbv zeta in Hf2.
    pose proof (round53_rel (delta * 36) ltac:(lia)) as Hr.
    assert (Hd1 : 35 * delta < round53 (delta * 36)) by lia.
    assert (Hb1 : dbl_one <= 35 ^ Z.of_nat m * round53 (delta * 36)).
    { rewrite Nat2Z.inj_succ, Z.pow_succ_r in Hb by lia.
      pose proof (Z.pow_nonneg 35 (Z.of_nat m) ltac:(lia)); nia. }
    destruct (_ <=? _); [rewrite (IH _ (round53 (delta * 36)) _ Hf2 ltac:(lia) Hb1)|]; reflexivity.
Qed.

(** The printed string: one integer digit, then the point and the
    fraction digits when some remain. *)
Lemma backup_code_of_digits (c : ascii) (buf : list Z) :
  Forall (fun d => 0 <= d < 36) buf ->
  let s := String.append (String c EmptyString)
             match buf with
             | [] => EmptyString
             | _ => String "." (string_of_list_ascii (map digit36_char (rev buf)))
             end in
  list_ascii_of_string (js_toUpperCase (js_substring_2_10 s))
  = map ascii_upper (firstn 8 (map digit36_char (rev buf))).
Proof.
  intros Hb; cbv zeta.
  destruct buf as [|d ds]; [reflexivity|].
  remember (map digit36_char (rev (d :: ds))) as cs eqn:Ecs.
  change (String.append (String c EmptyString) (String "." (string_of_list_ascii cs)))
    with (String c (String "." (string_of_list_ascii cs))).
  unfold js_substring_2_10; cbn [String.substring].
  rewrite js_toUpperCase_chars, substring0_chars; reflexivity.
Qed.

(** [Math.random().toString(36)] is one integer digit (0 or 1) followed,
    when fraction digits remain, by the point and digits [0-9a-z]. *)
Lemma number_toString36_shape (k : Z) :
  exists (c : ascii) (buf : list Z),
    Forall (fun d => 0 <= d < 36) buf
    /\ number_toString36 k
       = String.append (String c EmptyString)
           match buf with
           | [] => EmptyString
           | _ => String "." (string_of_list_ascii (map digit36_char (rev buf)))
           end.
Proof.
  unfold number_toString36; cbv zeta.
  assert (Hf : frac_ok (draw_bits k * 2 ^ (dbl_scale - 52))).
  { pose proof (draw_bits_range k); unfold frac_ok, mantissa_bits, dbl_one, dbl_scale in *.
    split; [lia | exists (draw_bits k); reflexivity]. }
  assert (Hr : Forall (fun d => 0 <= d < 36)
                 (fst (if radix36_delta (draw_bits k) <=? draw_bits k * 2 ^ (dbl_scale - 52)
                       then radix_fraction_loop 1100 (draw_bits k * 2 ^ (dbl_scale - 52))
                              (radix36_delta (draw_bits k)) []
                       else ([], false)))).
  { destruct (_ <=? _); [apply radix_fraction_loop_range; [exact Hf | constructor] | constructor]. }
  destruct (if _ <=? _ then _ else _) as [buf carried].
  exists (digit36_char (if carried then 1 else 0)), buf; split; [exact Hr|].
  destruct carried; reflexivity.
Qed.

(** The draw 2011288165487958: its base-36 expansion starts
    0.g2sd9cts..., and V8 rounds the printed digits up to 0.g2sd9ctt. *)
Lemma backup_code_rounding_example : backup_code 2011288165487958 = "G2SD9CTT"%string.
Proof. vm_compute; reflexivity. Qed.

Lemma backup_code_shape (k : Z) :
  (String.length (backup_code k) <= 8)%nat
  /\ forallb is_code_char (list_ascii_of_string (backup_code k)) = true.
Proof.
  destruct (number_toString36_shape k) as [c [buf [Hb Hs]]].
  unfold backup_code; rewrite Hs.
  rewrite string_length_chars, (backup_code_of_digits c buf Hb).
  split.
  - rewrite length_map; apply firstn_le_length.
  - apply forallb_forall; intros a Ha.
    apply in_map_iff in Ha as [a' [<- Ha']].
    rewrite firstn_map in Ha'.
    apply in_map_iff in Ha' as [d [<- Hin]].
    apply digit36_upper_code_char.
    apply List.Forall_rev, (Forall_firstn_of _ 8) in Hb.
    rewrite List.Forall_forall in Hb.
    exact (Hb d Hin).
Qed.

Lemma generateBackupCodes_loop_length (rnd : random_stream) (i n : nat) :
  length (generateBackupCodes_loop rnd i n) = n.
Proof. revert i; induction n as [|n IH]; intros i; simpl; [reflexivity | now rewrite IH]. Qed.

Lemma generateBackupCodes_length (rnd : random_stream) :
  length (generateBackupCodes rnd) = 8%nat.
Proof. apply generateBackupCodes_loop_length. Qed.

Lemma generateBackupCodes_loop_shape (rnd : random_stream) (i n : nat) :
  Forall (fun c => (String.length c <= 8)%nat
                   /\ forallb is_code_char (list_ascii_of_string c) = true)
    (generateBackupCodes_loop rnd i n).
Proof.
  revert i; induction n as [|n IH]; intros i; simpl; constructor.
  - apply backup_code_shape.
  - apply IH.
Qed.

(** ** Handlers *)

Lemma six_digit_code_nonempty (s : string) :
  six_digit_code s = true -> String.eqb s EmptyString = false.
Proof.
  intros H; destruct s; [discriminate | reflexivity].
Qed.

(** The successful path of [verifyAndEnable] on a well-formed code. *)
Lemma verifyAndEnable_valid_ok (u : auth_user) (rnd : random_stream) (w : world) :
  six_digit_code (verificationCode (w_ui w)) = true ->
  verifyAndEnable (Some u) rnd Call_ok w =
  push_toast enabled_toast
    (modify_ui (fun s => setVerificationCode EmptyString
                 (setShowSetup false
                 (setBackupCodes (generateBackupCodes rnd) (setIsEnabled true s))))
      (set_db (db_update_enable (user_id u) (generateBackupCodes rnd) (w_db w)) w)).
Proof.
  intros H.
  pose proof (six_digit_code_nonempty _ H) as Hne.
  unfold six_digit_code in H; apply andb_prop in H as [H1 H2].
  unfold verifyAndEnable.
  rewrite Hne, H1, H2; reflexivity.
Qed.

(** Every path of [verifyAndEnable] other than the successful one leaves
    the table alone. *)
Lemma verifyAndEnable_db (u : auth_user) (rnd : random_stream) (res : call_result)
  (w : world) :
  w_db (verifyAndEnable (Some u) rnd res w) =
  if six_digit_code (verificationCode (w_ui w)) && match res with Call_ok => true | _ => false end
  then db_update_enable (user_id u) (generateBackupCodes rnd) (w_db w)
  else w_db w.
Proof.
  unfold verifyAndEnable, six_digit_code.
  destruct (String.eqb (verificationCode (w_ui w)) EmptyString) eqn:E.
  - apply String.eqb_eq in E; rewrite E; reflexivity.
  - destruct (Nat.eqb (String.length (verificationCode (w_ui w))) 6),
      (all_digits (verificationCode (w_ui w))), res; reflexivity.
Qed.

(* ================================================================== *)
(** * Claims *)

(** ** Code verification (C1) *)

(** C1, counterexample: no derivation [totp] of a code from the stored
    secret and the current time makes "the record becomes enabled exactly
    when the submitted 6-digit code equals [totp secret now]" true of
    [verifyAndEnable]: both "000000" and "111111" enable a pending row. *)
Lemma confirm_not_totp_checked :
  ~ exists totp : string -> Z -> string,
      forall (u : auth_user) (rnd : random_stream) (w : world) (r : tfa_row)
             (s : string) (now : Z),
        w_db w !! user_id u = Some r -> row_secret r = Some s ->
        row_is_enabled r = false ->
        six_digit_code (verificationCode (w_ui w)) = true ->
        (row_enabled (w_db (verifyAndEnable (Some u) rnd Call_ok w) !! user_id u) = true
         <-> verificationCode (w_ui w) = totp s now).
Proof.
  intros [totp H].
  pose proof (H demo_user half_stream (world_with (code_ui "000000") (Some pending_row))
                pending_row demo_secret 0 eq_refl eq_refl eq_refl eq_refl) as H0.
  pose proof (H demo_user half_stream (world_with (code_ui "111111") (Some pending_row))
                pending_row demo_secret 0 eq_refl eq_refl eq_refl eq_refl) as H1.
  destruct H0 as [H0 _]; destruct H1 as [H1 _].
  specialize (H0 eq_refl); specialize (H1 eq_refl).
  cbn in H0, H1; rewrite <- H1 in H0; discriminate.
Qed.

(** C1 (amended): [verifyAndEnable] consults neither the stored secret
    nor the time.  With a successful write, a 6-digit numeric code always
    enables the user's row (when there is one) and sets [isEnabled]; any
    other code (empty, wrong length or not all digits) leaves the table and
    [isEnabled] unchanged. *)
Theorem confirm_checks_code_shape_only (u : auth_user) (rnd : random_stream) (w : world) :
  let w' := verifyAndEnable (Some u) rnd Call_ok w in
  w_db w' = (if six_digit_code (verificationCode (w_ui w))
             then db_update_enable (user_id u) (generateBackupCodes rnd) (w_db w)
             else w_db w)
  /\ isEnabled (w_ui w') = (if six_digit_code (verificationCode (w_ui w))
                            then true else isEnabled (w_ui w)).
Proof.
  cbv zeta; split.
  - rewrite verifyAndEnable_db, andb_true_r; reflexivity.
  - destruct (six_digit_code (verificationCode (w_ui w))) eqn:H.
    + rewrite verifyAndEnable_valid_ok by exact H; reflexivity.
    + unfold verifyAndEnable; unfold six_digit_code in H.
      destruct (String.eqb (verificationCode (w_ui w)) EmptyString); [reflexivity|].
      destruct (Nat.eqb (String.length (verificationCode (w_ui w))) 6),
        (all_digits (verificationCode (w_ui w))); try discriminate; reflexivity.
Qed.

(** ** Status check (C2) *)

(** C2, counterexample: no reading of the flag [checkTwoFactorStatus]
    sets gives the three states of the design: an empty table and a
    pending row give the same [isEnabled = false]. *)
Lemma check_status_not_three_states :
  ~ exists interp : bool -> tfa_state,
      forall (u : auth_user) (w : world),
        interp (isEnabled (w_ui (checkTwoFactorStatus (Some u) Call_ok w)))
        = spec_state_of_record (w_db w !! user_id u).
Proof.
  intros [interp H].
  pose proof (H demo_user (world_with initial_ui None)) as H0.
  pose proof (H demo_user (world_with initial_ui (Some pending_row))) as H1.
  vm_compute in H0, H1; rewrite H0 in H1; discriminate.
Qed.

(** C2 (amended): [checkTwoFactorStatus] reads only [is_enabled] and
    reports a boolean: enabled exactly when the user's row exists with
    [is_enabled = true], not enabled otherwise (no row and an unverified
    secret look the same); right after a successful [enableTwoFactor] it
    reports not enabled. *)
Theorem check_status_reports_is_enabled :
  (forall (u : auth_user) (w : world),
     isEnabled (w_ui (checkTwoFactorStatus (Some u) Call_ok w))
     = row_enabled (w_db w !! user_id u))
  /\ (forall (u : auth_user) (rnd : random_stream) (w : world),
        isEnabled (w_ui (checkTwoFactorStatus (Some u) Call_ok
                           (enableTwoFactor (Some u) rnd Call_ok w))) = false).
Proof.
  split.
  - intros u w; cbn.
    unfold db_select_is_enabled, row_enabled.
    destruct (w_db w !! user_id u) as [[s [] c]|]; reflexivity.
  - intros u rnd w; cbn.
    unfold db_select_is_enabled, db_upsert_setup.
    destruct (w_db w !! user_id u); rewrite lookup_insert_eq; reflexivity.
Qed.

(** ** Confirmation outside the pending state (C3) *)

(** C3, counterexample: [verifyAndEnable] has no state check.  With no
    row it reports success and sets [isEnabled] although nothing is
    written; after [disableTwoFactor] (which keeps the secret) it turns
    the row back on. *)
Lemma confirm_outside_pending_succeeds :
  let w0 := verifyAndEnable (Some demo_user) step_stream Call_ok
              (world_with (code_ui "123456") None) in
  let w1 := verifyAndEnable (Some demo_user) step_stream Call_ok
              (disableTwoFactor (Some demo_user) Call_ok
                 (world_with (code_ui "123456") (Some enabled_row))) in
  w_db w0 = ∅ /\ w_toasts w0 = [enabled_toast] /\ isEnabled (w_ui w0) = true
  /\ row_enabled (w_db w1 !! "u1") = true
  /\ w_db w1 !! "u1" <> Some (mk_row (Some demo_secret) false (Some ["A1B2C3D4"])).
Proof. vm_compute; repeat split; congruence. Qed.

(** C3 (amended): [verifyAndEnable] has no state guard and never fails
    for the state of the row: with a 6-digit numeric code and a
    successful write it reports success, sets [isEnabled], and turns on
    whatever row the user has (with fresh backup codes), or writes nothing
    when there is no row; the rows of other users are untouched. *)
Theorem confirm_has_no_state_guard (u : auth_user) (rnd : random_stream) (w : world) :
  six_digit_code (verificationCode (w_ui w)) = true ->
  let w' := verifyAndEnable (Some u) rnd Call_ok w in
  w_toasts w' = enabled_toast :: w_toasts w
  /\ isEnabled (w_ui w') = true
  /\ w_db w' !! user_id u
     = (fun r => mk_row (row_secret r) true (Some (generateBackupCodes rnd)))
         <$> w_db w !! user_id u
  /\ (forall k, k <> user_id u -> w_db w' !! k = w_db w !! k)
  /\ (w_db w !! user_id u = None -> w_db w' = w_db w).
Proof.
  intros H; cbv zeta.
  rewrite verifyAndEnable_valid_ok by exact H.
  cbn; split; [reflexivity | split; [reflexivity|]].
  unfold db_update_enable.
  split; [apply lookup_alter_eq|].
  split; [intros k Hk; apply lookup_alter_ne; congruence|].
  intros Hn; apply map_eq; intros k.
  destruct (decide (k = user_id u)) as [->|Hk].
  - rewrite lookup_alter_eq, Hn; reflexivity.
  - apply lookup_alter_ne; congruence.
Qed.

Lemma confirm_has_no_state_guard_witness :
  six_digit_code (verificationCode (w_ui (world_with (code_ui "123456") None))) = true
  /\ (let w := world_with (code_ui "123456") None in
      let w' := verifyAndEnable (Some demo_user) step_stream Call_ok w in
      w_toasts w' = enabled_toast :: w_toasts w
      /\ isEnabled (w_ui w') = true
      /\ w_db w' !! user_id demo_user
         = (fun r => mk_row (row_secret r) true (Some (generateBackupCodes step_stream)))
             <$> w_db w !! user_id demo_user
      /\ (forall k, k <> user_id demo_user -> w_db w' !! k = w_db w !! k)
      /\ (w_db w !! user_id demo_user = None -> w_db w' = w_db w)).
Proof.
  split; [reflexivity|].
  exact (confirm_has_no_state_guard demo_user step_stream
           (world_with (code_ui "123456") None) eq_refl).
Defined.

(** ** Starting the setup (C4) *)

(** C4, counterexample: started on an enabled row, [enableTwoFactor]
    switches protection off. *)
Lemma start_enrollment_disables_protection :
  row_enabled (w_db (world_with initial_ui (Some enabled_row)) !! "u1") = true
  /\ row_enabled (w_db (enableTwoFactor (Some demo_user) step_stream Call_ok
                          (world_with initial_ui (Some enabled_row))) !! "u1") = false.
Proof. vm_compute; split; reflexivity. Qed.

(** C4 (amended): [enableTwoFactor] has no state guard (its button is
    only rendered while the component's [isEnabled] flag is false).  On a
    successful write the user's row holds the fresh secret with
    [is_enabled = false] and keeps its backup codes, other rows are
    untouched; so protection is unchanged when the row was not enabled and
    switched off when it was.  A failed write changes nothing. *)
Theorem start_enrollment_writes_unverified_secret (u : auth_user) (rnd : random_stream)
  (w : world) :
  let t := w_db w in
  let t' := w_db (enableTwoFactor (Some u) rnd Call_ok w) in
  t' !! user_id u
  = Some (mk_row (Some (generateSecret rnd)) false
            (match t !! user_id u with Some r => row_backup_codes r | None => None end))
  /\ (forall v, v <> user_id u -> t' !! v = t !! v)
  /\ row_enabled (t' !! user_id u) = false
  /\ (row_enabled (t !! user_id u) = false ->
      row_enabled (t' !! user_id u) = row_enabled (t !! user_id u))
  /\ (forall m, w_db (enableTwoFactor (Some u) rnd (Call_error m) w) = t).
Proof.
  cbv zeta; cbn.
  unfold db_upsert_setup.
  destruct (w_db w !! user_id u) as [r|] eqn:E;
    (split; [rewrite lookup_insert_eq; reflexivity|]);
    (split; [intros v Hv; rewrite lookup_insert_ne by congruence; reflexivity|]);
    rewrite lookup_insert_eq; cbn; repeat split; congruence.
Qed.

(** ** Disabling (C5) *)

(** C5, counterexample: after [disableTwoFactor] the row keeps its
    secret and its backup codes. *)
Lemma disable_keeps_secret :
  w_db (disableTwoFactor (Some demo_user) Call_ok
          (world_with initial_ui (Some enabled_row))) !! "u1"
  = Some (mk_row (Some demo_secret) false (Some ["A1B2C3D4"])).
Proof. vm_compute; reflexivity. Qed.

(** C5 (amended): a successful [disableTwoFactor] writes
    [is_enabled = false] on the user's row and leaves its secret and
    backup codes as they were (nothing is written when there is no row);
    the component clears [isEnabled] and the displayed backup codes. *)
Theorem disable_clears_only_flag (u : auth_user) (w : world) :
  let w' := disableTwoFactor (Some u) Call_ok w in
  w_db w' !! user_id u
  = (fun r => mk_row (row_secret r) false (row_backup_codes r)) <$> w_db w !! user_id u
  /\ (forall v, v <> user_id u -> w_db w' !! v = w_db w !! v)
  /\ row_enabled (w_db w' !! user_id u) = false
  /\ isEnabled (w_ui w') = false /\ backupCodes (w_ui w') = [].
Proof.
  cbv zeta; cbn; unfold db_update_disable.
  split; [apply lookup_alter_eq|].
  split; [intros v Hv; apply lookup_alter_ne; congruence|].
  rewrite lookup_alter_eq.
  destruct (w_db w !! user_id u); repeat split.
Qed.

(** ** The record invariant (C6) *)

Lemma map_Forall_alter_pres (P : string -> tfa_row -> Prop) (f : tfa_row -> tfa_row)
  (i : string) (t : gmap string tfa_row) :
  map_Forall P t -> (forall r, P i r -> P i (f r)) -> map_Forall P (alter f i t).
Proof.
  intros H Hf j r Hj.
  apply lookup_alter_Some in Hj as [[<- [x [Hx ->]]] | [_ Hx]].
  - apply Hf, (H i x Hx).
  - apply (H j r Hx).
Qed.

Lemma upsert_setup_pres (uid secret : string) (t : gmap string tfa_row) :
  table_inv_strong t -> table_inv_strong (db_upsert_setup uid secret t).
Proof.
  intros H; unfold db_upsert_setup.
  destruct (t !! uid); apply map_Forall_insert_2; try exact H;
    split; try discriminate; intros Hf; discriminate.
Qed.

Lemma update_enable_pres (uid : string) (rnd : random_stream) (t : gmap string tfa_row) :
  table_inv_strong t ->
  table_inv_strong (db_update_enable uid (generateBackupCodes rnd) t).
Proof.
  intros H; apply map_Forall_alter_pres; [exact H|].
  intros r [Hs _]; cbn; split; [exact Hs|].
  intros _; split; [exact Hs|].
  pose proof (generateBackupCodes_length rnd) as Hl.
  destruct (generateBackupCodes rnd) as [|c cs]; [discriminate | eauto].
Qed.

Lemma update_disable_pres (uid : string) (t : gmap string tfa_row) :
  table_inv_strong t -> table_inv_strong (db_update_disable uid t).
Proof.
  intros H; apply map_Forall_alter_pres; [exact H|].
  intros r [Hs _]; cbn; split; [exact Hs | intros Hf; discriminate].
Qed.

Lemma tfa_step_pres (w w' : world) :
  tfa_step w w' -> table_inv_strong (w_db w) -> table_inv_strong (w_db w').
Proof.
  intros Hs H; destruct Hs as [user res w|user rnd res w|user rnd res w|user res w|value w|w].
  - destruct user, res; exact H.
  - destruct user as [u|]; [|exact H].
    destruct res; cbn; [apply upsert_setup_pres|]; exact H.
  - destruct user as [u|]; [|exact H].
    rewrite verifyAndEnable_db.
    destruct (_ && _); [apply update_enable_pres|]; exact H.
  - destruct user as [u|]; [|exact H].
    destruct res; cbn; [apply update_disable_pres|]; exact H.
  - exact H.
  - exact H.
Qed.

Lemma reachable_inv_strong (w : world) : reachable w -> table_inv_strong (w_db w).
Proof.
  induction 1 as [|w w' _ IH Hs].
  - apply map_Forall_empty.
  - exact (tfa_step_pres w w' Hs IH).
Qed.

(** C6: in every state the component can reach from an empty table,
    through any sequence of status checks, setups, verifications,
    disables and edits of the form, every enabled row has a secret and a
    non-empty list of backup codes. *)
Theorem tfa_invariant_reachable (w : world) : reachable w -> table_inv (w_db w).
Proof.
  intros Hr j r Hj.
  exact (proj2 (reachable_inv_strong w Hr j r Hj)).
Qed.

Lemma tfa_invariant_reachable_witness :
  let w := verifyAndEnable (Some demo_user) step_stream Call_ok
             (onVerificationInput "123456"
                (enableTwoFactor (Some demo_user) step_stream Call_ok initial_world)) in
  reachable w /\ table_inv (w_db w) /\ row_enabled (w_db w !! "u1") = true.
Proof.
  cbv zeta.
  assert (HR : reachable (verifyAndEnable (Some demo_user) step_stream Call_ok
             (onVerificationInput "123456"
                (enableTwoFactor (Some demo_user) step_stream Call_ok initial_world)))).
  { eapply reach_step; [| apply step_verify].
    eapply reach_step; [| apply step_input].
    eapply reach_step; [apply reach_init | apply step_enable]. }
  split; [exact HR|].
  split; [exact (tfa_invariant_reachable _ HR) | vm_compute; reflexivity].
Defined.

(** ** Backup codes returned by the confirmation (C7) *)

(** C7, counterexample: the codes are not checked for duplicates; two
    equal draws give equal codes, here eight copies of "I". *)
Lemma backup_codes_may_repeat :
  let w' := verifyAndEnable (Some demo_user) half_stream Call_ok
              (world_with (code_ui "123456") (Some pending_row)) in
  backupCodes (w_ui w') = repeat "I"%string 8
  /\ w_db w' !! "u1" = Some (mk_row (Some demo_secret) true (Some (repeat "I"%string 8)))
  /\ ~ NoDup (backupCodes (w_ui w')).
Proof.
  cbv zeta.
  assert (Hc : backupCodes (w_ui (verifyAndEnable (Some demo_user) half_stream Call_ok
                 (world_with (code_ui "123456") (Some pending_row)))) = repeat "I"%string 8)
    by (vm_compute; reflexivity).
  split; [exact Hc|].
  split; [vm_compute; reflexivity|].
  rewrite Hc; intros Hnd.
  inversion Hnd as [|x l Hnotin _]; apply Hnotin; left; reflexivity.
Qed.

(** C7 (amended): a successful confirmation generates exactly 8 backup
    codes, shows those 8 codes and writes the same 8 codes to the user's
    row (when there is one); nothing makes them pairwise distinct. *)
Theorem confirm_returns_eight_stored_codes (u : auth_user) (rnd : random_stream)
  (w : world) :
  six_digit_code (verificationCode (w_ui w)) = true ->
  let w' := verifyAndEnable (Some u) rnd Call_ok w in
  backupCodes (w_ui w') = generateBackupCodes rnd
  /\ length (backupCodes (w_ui w')) = 8%nat
  /\ (forall r, w_db w !! user_id u = Some r ->
        w_db w' !! user_id u = Some (mk_row (row_secret r) true (Some (backupCodes (w_ui w'))))).
Proof.
  intros H; cbv zeta.
  rewrite verifyAndEnable_valid_ok by exact H; cbn.
  split; [reflexivity|].
  split; [exact (generateBackupCodes_length rnd)|].
  intros r Hr; unfold db_update_enable.
  rewrite lookup_alter_eq, Hr; reflexivity.
Qed.

Lemma confirm_returns_eight_stored_codes_witness :
  six_digit_code (verificationCode (w_ui (world_with (code_ui "123456") (Some pending_row))))
    = true
  /\ (let w' := verifyAndEnable (Some demo_user) step_stream Call_ok
                  (world_with (code_ui "123456") (Some pending_row)) in
      backupCodes (w_ui w') = generateBackupCodes step_stream
      /\ length (backupCodes (w_ui w')) = 8%nat
      /\ (forall r, w_db (world_with (code_ui "123456") (Some pending_row)) !! user_id demo_user
                    = Some r ->
            w_db w' !! user_id demo_user
            = Some (mk_row (row_secret r) true (Some (backupCodes (w_ui w')))))).
Proof.
  split; [reflexivity|].
  exact (confirm_returns_eight_stored_codes demo_user step_stream
           (world_with (code_ui "123456") (Some pending_row)) eq_refl).
Defined.

(** ** Failed confirmation (C8) *)

(** C8, counterexample: an empty code is a failed confirmation (the row
    stays pending and 2FA is not turned on), yet [verifyAndEnable]
    returns at its first guard and reports no error: no toast is shown. *)
Lemma confirm_empty_code_reports_nothing :
  let w := world_with (code_ui "") (Some pending_row) in
  let w' := verifyAndEnable (Some demo_user) step_stream Call_ok w in
  spec_state_of_record (w_db w' !! "u1") = PendingVerification
  /\ isEnabled (w_ui w') = false /\ w_toasts w' = [].
Proof. vm_compute; repeat split. Qed.

(** C8 (amended): whenever [verifyAndEnable] does not go through (the
    code is not 6 digits, or the write fails), the table and the
    component state are left as they were; a "Verification failed" error
    toast is shown when the code is non-empty, and nothing at all is
    reported when it is empty. *)
Theorem confirm_failure_keeps_record (u : auth_user) (rnd : random_stream)
  (res : call_result) (w : world) :
  (six_digit_code (verificationCode (w_ui w)) = false \/ res <> Call_ok) ->
  let w' := verifyAndEnable (Some u) rnd res w in
  w_db w' = w_db w /\ w_ui w' = w_ui w
  /\ spec_state_of_record (w_db w' !! user_id u) = spec_state_of_record (w_db w !! user_id u)
  /\ (verificationCode (w_ui w) = EmptyString -> w_toasts w' = w_toasts w)
  /\ (verificationCode (w_ui w) <> EmptyString ->
      exists m, w_toasts w' = mk_toast Toast_destructive "Verification failed" m :: w_toasts w).
Proof.
  intros Hfail; cbv zeta.
  unfold verifyAndEnable, six_digit_code in *.
  destruct (String.eqb (verificationCode (w_ui w)) EmptyString) eqn:E.
  { apply String.eqb_eq in E.
    do 3 (split; [reflexivity|]).
    split; [intros _; reflexivity | intros Hc; contradiction]. }
  assert (Hne : verificationCode (w_ui w) <> EmptyString).
  { intros Hc; rewrite Hc in E; discriminate. }
  destruct (Nat.eqb (String.length (verificationCode (w_ui w))) 6),
    (all_digits (verificationCode (w_ui w))); cbn;
    try (do 3 (split; [reflexivity|]);
         split; [intros Hc; contradiction | intros _; eexists; reflexivity]).
  destruct res as [|m]; [destruct Hfail as [Hf|Hf]; [discriminate | congruence]|].
  do 3 (split; [reflexivity|]).
  split; [intros Hc; contradiction | intros _; eexists; reflexivity].
Qed.

Lemma confirm_failure_keeps_record_witness :
  six_digit_code (verificationCode (w_ui (world_with (code_ui "12a456") (Some pending_row))))
    = false
  /\ (let w := world_with (code_ui "12a456") (Some pending_row) in
      let w' := verifyAndEnable (Some demo_user) step_stream Call_ok w in
      w_db w' = w_db w /\ w_ui w' = w_ui w
      /\ spec_state_of_record (w_db w' !! user_id demo_user)
         = spec_state_of_record (w_db w !! user_id demo_user)
      /\ (verificationCode (w_ui w) = EmptyString -> w_toasts w' = w_toasts w)
      /\ (verificationCode (w_ui w) <> EmptyString ->
          exists m, w_toasts w'
                    = mk_toast Toast_destructive "Verification failed" m :: w_toasts w)).
Proof.
  split; [reflexivity|].
  exact (confirm_failure_keeps_record demo_user step_stream Call_ok
           (world_with (code_ui "12a456") (Some pending_row)) (or_introl eq_refl)).
Defined.

(** ** Failed status read (C9) *)

(** C9, counterexample: on first load, a failed read of an enabled row
    shows no error and leaves the component reporting 2FA as disabled
    ([isEnabled = false], [loading = false]). *)
Lemma check_status_error_shows_disabled :
  let w := world_with initial_ui (Some enabled_row) in
  let w' := checkTwoFactorStatus (Some demo_user) (Call_error "Failed to fetch") w in
  spec_state_of_record (w_db w !! "u1") = Enabled
  /\ isEnabled (w_ui w') = false /\ loading (w_ui w') = false
  /\ w_toasts w' = [].
Proof. vm_compute; repeat split. Qed.

(** C9 (amended): when the read fails, [checkTwoFactorStatus] only logs
    the error: no toast is shown, the table is untouched, and the
    component keeps the [isEnabled] flag it had before (so on first load
    it shows the initial "disabled"); only [loading] is cleared. *)
Theorem check_status_error_only_logged (u : auth_user) (m : string) (w : world) :
  let w' := checkTwoFactorStatus (Some u) (Call_error m) w in
  w_ui w' = setLoading false (w_ui w)
  /\ isEnabled (w_ui w') = isEnabled (w_ui w)
  /\ w_db w' = w_db w /\ w_toasts w' = w_toasts w
  /\ w_console w' = String.append "Error checking 2FA status: " m :: w_console w.
Proof. cbv zeta; cbn; repeat split. Qed.

(** ** Shape of the backup codes (C10) *)

(** C10: whatever the random draws, every backup code has at most 8
    characters, all in [0-9A-Z]; and some draw (the value 1/2, printed
    "0.i" in base 36) gives a code shorter than 8 characters. *)
Theorem backup_codes_charset_length :
  (forall rnd : random_stream,
     Forall (fun c => (String.length c <= 8)%nat
                      /\ forallb is_code_char (list_ascii_of_string c) = true)
       (generateBackupCodes rnd))
  /\ exists rnd : random_stream,
       Exists (fun c => (String.length c < 8)%nat) (generateBackupCodes rnd).
Proof.
  split.
  - intros rnd; apply generateBackupCodes_loop_shape.
  - exists half_stream.
    apply Exists_cons_hd.
    apply Nat.ltb_lt; vm_compute; reflexivity.
Qed.

(* ================================================================== *)
(** * Further properties of the component *)

(** ** [generateSecret] *)

Lemma string_append_chars (a b : string) :
  list_ascii_of_string (String.append a b)
  = list_ascii_of_string a ++ list_ascii_of_string b.
Proof. induction a as [|c a IH]; simpl; [reflexivity | now rewrite IH]. Qed.

Lemma random_index_range (k : Z) : 0 <= random_index k 32 < 32.
Proof.
  unfold random_index; pose proof (draw_bits_range k) as H.
  unfold mantissa_bits in *.
  split; [apply Z.div_pos; lia|].
  apply Z.div_lt_upper_bound; lia.
Qed.

Lemma secret_charAt_ok (j : Z) :
  0 <= j < 32 ->
  exists c, js_charAt secret_chars j = String c EmptyString /\ is_secret_char c = true.
Proof.
  intros Hj.
  assert (Hall : forallb (fun n => match js_charAt secret_chars (Z.of_nat n) with
                                   | String c EmptyString => is_secret_char c
                                   | _ => false
                                   end) (seq 0 32) = true) by reflexivity.
  rewrite forallb_forall in Hall.
  specialize (Hall (Z.to_nat j)); rewrite Z2Nat.id in Hall by lia.
  assert (Hin : In (Z.to_nat j) (seq 0 32)) by (apply in_seq; lia).
  specialize (Hall Hin).
  destruct (js_charAt secret_chars j) as [|c [|c' s]]; try discriminate.
  eauto.
Qed.

Lemma generateSecret_loop_shape (rnd : random_stream) (i n : nat) (acc : string) :
  String.length (generateSecret_loop rnd i n acc) = (String.length acc + n)%nat
  /\ forallb is_secret_char (list_ascii_of_string (generateSecret_loop rnd i n acc))
     = forallb is_secret_char (list_ascii_of_string acc).
Proof.
  revert i acc; induction n as [|n IH]; intros i acc; simpl.
  - split; [lia | reflexivity].
  - destruct (secret_charAt_ok (random_index (rnd i) (Z.of_nat 32))
                (random_index_range (rnd i))) as [c [Hc Hok]].
    rewrite Hc.
    destruct (IH (S i) (String.append acc (String c EmptyString))) as [H1 H2].
    rewrite H1, H2, !string_length_chars, !string_append_chars, forallb_app.
    cbn; rewrite Hok, length_app; cbn.
    split; [lia | apply andb_true_r].
Qed.

Lemma generateSecret_chars (rnd : random_stream) :
  String.length (generateSecret rnd) = 32%nat
  /\ forallb is_secret_char (list_ascii_of_string (generateSecret rnd)) = true.
Proof.
  destruct (generateSecret_loop_shape rnd 0 32 EmptyString) as [H1 H2].
  split; [exact H1 | exact H2].
Qed.

(** X1: a generated secret has exactly 32 characters, all from the
    alphabet [A-Z2-7], whatever the random draws. *)
Theorem generateSecret_shape (rnd : random_stream) :
  String.length (generateSecret rnd) = 32%nat
  /\ forallb is_secret_char (list_ascii_of_string (generateSecret rnd)) = true.
Proof. exact (generateSecret_chars rnd). Qed.

(** ** [encodeURIComponent] and [generateQRCode] *)

Lemma encodeURIComponent_append (a b : string) :
  encodeURIComponent (String.append a b)
  = String.append (encodeURIComponent a) (encodeURIComponent b).
Proof.
  induction a as [|c a IH]; simpl; [reflexivity|].
  destruct (uri_unreserved c); simpl; now rewrite IH.
Qed.

Lemma hex_char_val (d : nat) : (d < 16)%nat -> hex_val (hex_char d) = d.
Proof.
  intros Hd.
  assert (Hall : forallb (fun n => Nat.eqb (hex_val (hex_char n)) n) (seq 0 16) = true)
    by reflexivity.
  rewrite forallb_forall in Hall.
  apply Nat.eqb_eq, Hall, in_seq; lia.
Qed.

Lemma hex_char_safe (d : nat) : (d < 16)%nat -> uri_unreserved (hex_char d) = true.
Proof.
  intros Hd.
  assert (Hall : forallb (fun n => uri_unreserved (hex_char n)) (seq 0 16) = true)
    by reflexivity.
  rewrite forallb_forall in Hall.
  apply Hall, in_seq; lia.
Qed.

Lemma unreserved_not_percent (c : ascii) :
  uri_unreserved c = true -> Ascii.eqb c "%" = false.
Proof.
  intros H; destruct (Ascii.eqb c "%") eqn:E; [|reflexivity].
  apply Ascii.eqb_eq in E; subst; discriminate.
Qed.

Lemma uri_decode_encode (s : string) : uri_decode (encodeURIComponent s) = s.
Proof.
  induction s as [|c s IH]; [reflexivity|].
  destruct (uri_unreserved c) eqn:Hu.
  - cbn [encodeURIComponent]; rewrite Hu; cbn [uri_decode].
    rewrite (unreserved_not_percent c Hu), IH; reflexivity.
  - pose proof (Nat.div_mod_eq (nat_of_ascii c) 16) as Hdm.
    pose proof (nat_ascii_bounded c) as Hb.
    assert (Hq : (nat_of_ascii c / 16 < 16)%nat) by (apply Nat.Div0.div_lt_upper_bound; lia).
    assert (Hr : (nat_of_ascii c mod 16 < 16)%nat) by (apply Nat.mod_upper_bound; lia).
    cbn [encodeURIComponent]; rewrite Hu.
    remember (nat_of_ascii c / 16)%nat as q eqn:Eq.
    remember (nat_of_ascii c mod 16)%nat as r eqn:Er.
    clear Eq Er.
    simpl; rewrite IH, !hex_char_val by assumption.
    rewrite (Nat.mul_comm q 16), <- Hdm, ascii_nat_embedding; reflexivity.
Qed.

Lemma encode_inj (s1 s2 : string) :
  encodeURIComponent s1 = encodeURIComponent s2 -> s1 = s2.
Proof.
  intros H; rewrite <- (uri_decode_encode s1), <- (uri_decode_encode s2), H; reflexivity.
Qed.

(** X2: [encodeURIComponent] is injective: different strings are
    encoded differently (percent-decoding gives the string back). *)
Theorem encodeURIComponent_injective (s1 s2 : string) :
  encodeURIComponent s1 = encodeURIComponent s2 -> s1 = s2.
Proof. exact (encode_inj s1 s2). Qed.

Lemma encodeURIComponent_injective_witness :
  encodeURIComponent "a b" = encodeURIComponent "a b" /\ "a b"%string = "a b"%string.
Proof.
  split; [reflexivity|].
  apply encodeURIComponent_injective; reflexivity.
Defined.

(** X3: the output of [encodeURIComponent] only holds unreserved
    characters and [%], so none of [&], [=], [?], [#] or a space can
    appear in the [data] parameter of the QR-code URL. *)
Theorem encodeURIComponent_query_safe (s : string) :
  forallb query_safe (list_ascii_of_string (encodeURIComponent s)) = true
  /\ forallb (fun c => negb (query_safe c)) ["&"; "="; "?"; "#"; " "]%char = true.
Proof.
  split; [|reflexivity].
  induction s as [|c s IH]; [reflexivity|].
  cbn [encodeURIComponent]; destruct (uri_unreserved c) eqn:Hu.
  - cbn [list_ascii_of_string forallb]; unfold query_safe at 1; rewrite Hu; exact IH.
  - pose proof (nat_ascii_bounded c) as Hb.
    assert (Hq : (nat_of_ascii c / 16 < 16)%nat) by (apply Nat.Div0.div_lt_upper_bound; lia).
    assert (Hr : (nat_of_ascii c mod 16 < 16)%nat) by (apply Nat.mod_upper_bound; lia).
    cbn [list_ascii_of_string forallb].
    unfold query_safe at 2 3.
    rewrite (hex_char_safe _ Hq), (hex_char_safe _ Hr), IH; reflexivity.
Qed.

Lemma secret_chars_unreserved (s : string) :
  forallb is_secret_char (list_ascii_of_string s) = true -> encodeURIComponent s = s.
Proof.
  induction s as [|c s IH]; [reflexivity|].
  cbn [list_ascii_of_string forallb]; intros H; apply andb_prop in H as [Hc Hs].
  cbn [encodeURIComponent].
  assert (Hu : uri_unreserved c = true).
  { assert (Hall : forallb (fun n => implb (is_secret_char (ascii_of_nat n))
                                           (uri_unreserved (ascii_of_nat n)))
                     (seq 0 256) = true) by reflexivity.
    rewrite forallb_forall in Hall.
    pose proof (nat_ascii_bounded c) as Hb.
    specialize (Hall (nat_of_ascii c) ltac:(apply in_seq; lia)).
    rewrite ascii_nat_embedding, Hc in Hall; exact Hall. }
  rewrite Hu, IH by exact Hs; reflexivity.
Qed.

(** X4: the QR-code URL built for a generated secret is the fixed
    service prefix, the encoded account label, and the secret itself
    unencoded between [%3Fsecret%3D] and [%26issuer%3DCalmora]. *)
Theorem generateQRCode_generated_secret (email : string) (rnd : random_stream) :
  generateQRCode email (generateSecret rnd)
  = String.append "https://api.qrserver.com/v1/create-qr-code/?size=200x200&data="
      (String.append "otpauth%3A%2F%2Ftotp%2FCalmora%3A"
      (String.append (encodeURIComponent email)
      (String.append "%3Fsecret%3D"
      (String.append (generateSecret rnd) "%26issuer%3DCalmora")))).
Proof.
  unfold generateQRCode.
  rewrite !encodeURIComponent_append.
  rewrite (secret_chars_unreserved _ (proj2 (generateSecret_chars rnd))).
  reflexivity.
Qed.

Lemma string_append_cancel_l (p a b : string) :
  String.append p a = String.append p b -> a = b.
Proof. induction p as [|c p IH]; simpl; [auto | intros H; injection H; auto]. Qed.

Lemma string_append_cancel_r (a b p : string) :
  String.append a p = String.append b p -> a = b.
Proof.
  intros H; apply (f_equal list_ascii_of_string) in H.
  rewrite !string_append_chars in H; apply app_inv_tail in H.
  rewrite <- (string_of_list_ascii_of_string a), <- (string_of_list_ascii_of_string b), H.
  reflexivity.
Qed.

(** X5: for one account label, different secrets give different
    QR-code URLs. *)
Theorem generateQRCode_injective_secret (email s1 s2 : string) :
  generateQRCode email s1 = generateQRCode email s2 -> s1 = s2.
Proof.
  unfold generateQRCode; intros H.
  apply string_append_cancel_l, encode_inj in H.
  do 3 apply string_append_cancel_l in H.
  exact (string_append_cancel_r _ _ _ H).
Qed.

Lemma generateQRCode_injective_secret_witness :
  generateQRCode "u1@example.com" demo_secret = generateQRCode "u1@example.com" demo_secret
  /\ demo_secret = demo_secret.
Proof.
  split; [reflexivity|].
  apply (generateQRCode_injective_secret "u1@example.com"); reflexivity.
Defined.

(** ** The verification-code input *)

Lemma filter_is_digit_list (l : list ascii) :
  filter is_digit l = List.filter is_digit l.
Proof.
  induction l as [|c l IH]; [reflexivity|].
  rewrite filter_cons; cbn [List.filter].
  destruct (is_digit c); [rewrite decide_True by exact I | rewrite decide_False by auto];
    rewrite ?IH; reflexivity.
Qed.

Lemma filter_digits_all (l : list ascii) :
  forallb is_digit l = true -> List.filter is_digit l = l.
Proof.
  induction l as [|c l IH]; simpl; [reflexivity|].
  intros H; apply andb_prop in H as [Hc Hl]; rewrite Hc, IH by exact Hl; reflexivity.
Qed.

Lemma forallb_filter_digits (l : list ascii) :
  forallb is_digit (List.filter is_digit l) = true.
Proof.
  induction l as [|c l IH]; simpl; [reflexivity|].
  destruct (is_digit c) eqn:Hc; simpl; [rewrite Hc|]; exact IH.
Qed.

Lemma forallb_firstn_of {A} (f : A -> bool) (n : nat) (l : list A) :
  forallb f l = true -> forallb f (firstn n l) = true.
Proof.
  revert l; induction n as [|n IH]; intros [|x l] H; simpl; try reflexivity.
  simpl in H; apply andb_prop in H as [Hx Hl]; rewrite Hx; apply IH, Hl.
Qed.

Lemma onVerificationInput_chars (value : string) (w : world) :
  list_ascii_of_string (verificationCode (w_ui (onVerificationInput value w)))
  = firstn 6 (List.filter is_digit (list_ascii_of_string value)).
Proof.
  unfold onVerificationInput; cbn.
  rewrite substring0_chars, filter_is_digit_list; reflexivity.
Qed.

Lemma onVerificationInput_shape (value : string) (w : world) :
  let code := verificationCode (w_ui (onVerificationInput value w)) in
  (String.length code <= 6)%nat
  /\ forallb is_digit (list_ascii_of_string code) = true
  /\ six_digit_code code = Nat.eqb (String.length code) 6.
Proof.
  cbv zeta.
  pose proof (onVerificationInput_chars value w) as Hc.
  pose proof (forallb_filter_digits (list_ascii_of_string value)) as Hd.
  apply (forallb_firstn_of _ 6) in Hd; rewrite <- Hc in Hd.
  set (code := verificationCode (w_ui (onVerificationInput value w))) in *.
  split; [rewrite string_length_chars, Hc; apply firstn_le_length|].
  split; [exact Hd|].
  unfold six_digit_code, all_digits.
  destruct code as [|c rest]; [reflexivity|].
  rewrite Hd, andb_true_r; reflexivity.
Qed.

(** X6: whatever is typed, the input keeps at most 6 characters, all
    digits, so the code passes the 6-digit check of [verifyAndEnable]
    exactly when it has 6 characters, which is when the Verify button is
    enabled. *)
Theorem onVerificationInput_code (value : string) (w : world) :
  let code := verificationCode (w_ui (onVerificationInput value w)) in
  (String.length code <= 6)%nat
  /\ forallb is_digit (list_ascii_of_string code) = true
  /\ six_digit_code code = Nat.eqb (String.length code) 6.
Proof. exact (onVerificationInput_shape value w). Qed.

(** ** Copying the backup codes *)

Lemma split_on_no_sep (c : ascii) (a : string) :
  no_char c a = true -> split_on c a = [a].
Proof.
  unfold no_char; induction a as [|x a IH]; [reflexivity|].
  cbn [list_ascii_of_string forallb split_on]; intros H.
  apply andb_prop in H as [Hx Ha]; apply negb_true_iff in Hx.
  rewrite Hx, IH by exact Ha; reflexivity.
Qed.

Lemma split_on_append (c : ascii) (a rest : string) :
  no_char c a = true ->
  split_on c (String.append a (String c rest)) = a :: split_on c rest.
Proof.
  unfold no_char; induction a as [|x a IH]; intros H.
  - change (String.append EmptyString (String c rest)) with (String c rest).
    simpl; rewrite Ascii.eqb_refl; reflexivity.
  - cbn [list_ascii_of_string forallb] in H.
    apply andb_prop in H as [Hx Ha]; apply negb_true_iff in Hx.
    simpl; rewrite Hx, IH by exact Ha; reflexivity.
Qed.

Lemma split_on_join (c : ascii) (l : list string) :
  l <> [] -> Forall (fun a => no_char c a = true) l ->
  split_on c (js_join (String c EmptyString) l) = l.
Proof.
  induction l as [|x l IH]; intros Hne Hl; [congruence|].
  inversion Hl as [|? ? Hx Hrest]; subst.
  destruct l as [|y l].
  - apply split_on_no_sep, Hx.
  - change (js_join (String c EmptyString) (x :: y :: l))
      with (String.append x (String c (js_join (String c EmptyString) (y :: l)))).
    rewrite split_on_append by exact Hx.
    rewrite IH by (discriminate || exact Hrest); reflexivity.
Qed.

Lemma code_char_not_newline (s : string) :
  forallb is_code_char (list_ascii_of_string s) = true ->
  no_char (ascii_of_nat 10) s = true.
Proof.
  unfold no_char; induction s as [|x s IH]; [reflexivity|].
  cbn [list_ascii_of_string forallb]; intros H.
  apply andb_prop in H as [Hx Hs]; rewrite IH by exact Hs.
  destruct (Ascii.eqb x (ascii_of_nat 10)) eqn:E; [|reflexivity].
  apply Ascii.eqb_eq in E; subst; discriminate.
Qed.

Lemma generateBackupCodes_no_newline (rnd : random_stream) :
  Forall (fun a => no_char (ascii_of_nat 10) a = true) (generateBackupCodes rnd).
Proof.
  eapply List.Forall_impl; [| exact (generateBackupCodes_loop_shape rnd 0 8)].
  intros a [_ Ha]; apply code_char_not_newline, Ha.
Qed.

(** X7: after a successful confirmation, the text [copyBackupCodes]
    puts on the clipboard splits on line breaks into exactly the backup
    codes shown (no code contains a line break). *)
Theorem copied_codes_split_back (u : auth_user) (rnd : random_stream) (w : world) :
  six_digit_code (verificationCode (w_ui w)) = true ->
  let w' := verifyAndEnable (Some u) rnd Call_ok w in
  split_on (ascii_of_nat 10) (fst (copyBackupCodes w')) = backupCodes (w_ui w')
  /\ backupCodes (w_ui w') = generateBackupCodes rnd.
Proof.
  intros H; cbv zeta.
  rewrite verifyAndEnable_valid_ok by exact H; cbn [fst copyBackupCodes push_toast
    modify_ui w_ui set_db setVerificationCode setShowSetup setBackupCodes setIsEnabled
    backupCodes].
  split; [|reflexivity].
  apply split_on_join.
  - pose proof (generateBackupCodes_length rnd) as Hl.
    destruct (generateBackupCodes rnd); [discriminate | congruence].
  - apply generateBackupCodes_no_newline.
Qed.

Lemma copied_codes_split_back_witness :
  six_digit_code (verificationCode (w_ui (world_with (code_ui "123456") (Some pending_row))))
    = true
  /\ (let w' := verifyAndEnable (Some demo_user) step_stream Call_ok
                  (world_with (code_ui "123456") (Some pending_row)) in
      split_on (ascii_of_nat 10) (fst (copyBackupCodes w')) = backupCodes (w_ui w')
      /\ backupCodes (w_ui w') = generateBackupCodes step_stream).
Proof.
  split; [reflexivity|].
  exact (copied_codes_split_back demo_user step_stream
           (world_with (code_ui "123456") (Some pending_row)) eq_refl).
Defined.

(** ** Component state between handlers *)

Ltac close_ui_goal :=
  unfold ui_ok; cbn; repeat split; try assumption; try reflexivity; try lia.

Lemma verifyAndEnable_ui_ok (user : option auth_user) (rnd : random_stream)
  (res : call_result) (w : world) :
  ui_ok (w_ui w) -> ui_ok (w_ui (verifyAndEnable user rnd res w)).
Proof.
  intros H; pose proof H as (H1 & H2 & H3 & H4 & H5).
  destruct user as [u|]; [|exact H].
  unfold verifyAndEnable.
  destruct (String.eqb _ _); [exact H|].
  destruct (negb _ || negb _); [exact H|].
  destruct res; [|exact H].
  close_ui_goal.
Qed.

Lemma tfa_step_ui_ok (w w' : world) : tfa_step w w' -> ui_ok (w_ui w) -> ui_ok (w_ui w').
Proof.
  intros Hs H; pose proof H as (H1 & H2 & H3 & H4 & H5).
  destruct Hs as [user res w|user rnd res w|user rnd res w|user res w|value w|w].
  - destruct user as [u|]; [|exact H].
    destruct res; close_ui_goal.
  - destruct user as [u|]; [|exact H].
    destruct res; close_ui_goal.
  - apply verifyAndEnable_ui_ok, H.
  - destruct user as [u|]; [|exact H].
    destruct res; close_ui_goal.
    left; reflexivity.
  - destruct (onVerificationInput_shape value w) as (Hl & Hd & _).
    unfold ui_ok; cbn in Hl, Hd |- *; repeat split; assumption.
  - close_ui_goal.
Qed.

Lemma reachable_ui_ok (w : world) : reachable w -> ui_ok (w_ui w).
Proof.
  induction 1 as [|w w' _ IH Hs].
  - close_ui_goal; left; reflexivity.
  - exact (tfa_step_ui_ok w w' Hs IH).
Qed.

(** X8: between handlers the component is never left "setting up" or
    "disabling", the typed code has at most 6 characters, all digits,
    and the displayed backup codes are either none or exactly 8. *)
Theorem reachable_ui_state (w : world) :
  reachable w ->
  isEnabling (w_ui w) = false /\ isDisabling (w_ui w) = false
  /\ (String.length (verificationCode (w_ui w)) <= 6)%nat
  /\ forallb is_digit (list_ascii_of_string (verificationCode (w_ui w))) = true
  /\ (backupCodes (w_ui w) = [] \/ length (backupCodes (w_ui w)) = 8%nat).
Proof. intros Hr; exact (reachable_ui_ok w Hr). Qed.

Lemma reachable_ui_state_witness :
  let w := verifyAndEnable (Some demo_user) step_stream Call_ok
             (onVerificationInput "12-34-56"
                (enableTwoFactor (Some demo_user) step_stream Call_ok initial_world)) in
  reachable w
  /\ (isEnabling (w_ui w) = false /\ isDisabling (w_ui w) = false
      /\ (String.length (verificationCode (w_ui w)) <= 6)%nat
      /\ forallb is_digit (list_ascii_of_string (verificationCode (w_ui w))) = true
      /\ (backupCodes (w_ui w) = [] \/ length (backupCodes (w_ui w)) = 8%nat)).
Proof.
  cbv zeta.
  assert (HR : reachable (verifyAndEnable (Some demo_user) step_stream Call_ok
             (onVerificationInput "12-34-56"
                (enableTwoFactor (Some demo_user) step_stream Call_ok initial_world)))).
  { eapply reach_step; [| apply step_verify].
    eapply reach_step; [| apply step_input].
    eapply reach_step; [apply reach_init | apply step_enable]. }
  split; [exact HR | exact (reachable_ui_state _ HR)].
Defined.

(** X9: once the first status check has finished ([loading = false]),
    no handler ever sets [loading] back to true: the spinner is shown
    only before the first check. *)
Theorem loading_stays_false (w w' : world) :
  tfa_step w w' -> loading (w_ui w) = false -> loading (w_ui w') = false.
Proof.
  intros Hs H.
  destruct Hs as [user res w|user rnd res w|user rnd res w|user res w|value w|w].
  - destruct user; [destruct res|]; cbn; auto.
  - destruct user; [destruct res|]; cbn; auto.
  - destruct user as [u|]; [|exact H].
    unfold verifyAndEnable.
    destruct (String.eqb _ _); [exact H|].
    destruct (negb _ || negb _); [exact H|].
    destruct res; exact H.
  - destruct user; [destruct res|]; cbn; auto.
  - exact H.
  - exact H.
Qed.

Lemma loading_stays_false_witness :
  let w := checkTwoFactorStatus (Some demo_user) Call_ok initial_world in
  tfa_step w (enableTwoFactor (Some demo_user) step_stream Call_ok w)
  /\ loading (w_ui w) = false
  /\ loading (w_ui (enableTwoFactor (Some demo_user) step_stream Call_ok w)) = false.
Proof.
  cbv zeta.
  split; [apply step_enable|].
  split; [reflexivity|].
  apply (loading_stays_false (checkTwoFactorStatus (Some demo_user) Call_ok initial_world));
    [apply step_enable | reflexivity].
Defined.

(** ** Compositions of handlers *)

Lemma onVerificationInput_keeps (code : string) (w : world) :
  six_digit_code code = true ->
  verificationCode (w_ui (onVerificationInput code w)) = code.
Proof.
  intros H.
  pose proof (onVerificationInput_chars code w) as Hc.
  unfold six_digit_code in H; apply andb_prop in H as [Hl Hd].
  apply Nat.eqb_eq in Hl.
  assert (Hall : forallb is_digit (list_ascii_of_string code) = true).
  { destruct code; [discriminate | exact Hd]. }
  rewrite (filter_digits_all _ Hall), firstn_all2 in Hc
    by (rewrite <- string_length_chars; lia).
  apply (f_equal string_of_list_ascii) in Hc.
  rewrite !string_of_list_ascii_of_string in Hc; exact Hc.
Qed.

(** X10: starting the setup, typing a 6-digit code and confirming, all
    with successful writes, leaves the user's row with the generated
    secret, enabled, holding the 8 generated backup codes; a following
    status check reports 2FA enabled, with the setup form closed and the
    codes displayed. *)
Theorem setup_confirm_then_status (u : auth_user) (rnd1 rnd2 : random_stream)
  (code : string) (w : world) :
  six_digit_code code = true ->
  let w1 := enableTwoFactor (Some u) rnd1 Call_ok w in
  let w2 := onVerificationInput code w1 in
  let w3 := verifyAndEnable (Some u) rnd2 Call_ok w2 in
  let w4 := checkTwoFactorStatus (Some u) Call_ok w3 in
  w_db w4 !! user_id u
  = Some (mk_row (Some (generateSecret rnd1)) true (Some (generateBackupCodes rnd2)))
  /\ isEnabled (w_ui w4) = true /\ showSetup (w_ui w4) = false
  /\ backupCodes (w_ui w4) = generateBackupCodes rnd2.
Proof.
  intros H; cbv zeta.
  rewrite verifyAndEnable_valid_ok
    by (rewrite onVerificationInput_keeps by exact H; exact H).
  change (w_db (onVerificationInput code (enableTwoFactor (Some u) rnd1 Call_ok w)))
    with (db_upsert_setup (user_id u) (generateSecret rnd1) (w_db w)).
  remember (generateSecret rnd1) as sec; remember (generateBackupCodes rnd2) as cs.
  assert (Hrow : db_update_enable (user_id u) cs
                   (db_upsert_setup (user_id u) sec (w_db w)) !! user_id u
                 = Some (mk_row (Some sec) true (Some cs))).
  { unfold db_update_enable, db_upsert_setup; rewrite lookup_alter_eq.
    destruct (w_db w !! user_id u); rewrite lookup_insert_eq; reflexivity. }
  cbn -[db_update_enable db_upsert_setup lookup]; unfold db_select_is_enabled.
  rewrite Hrow; repeat split.
Qed.

Lemma setup_confirm_then_status_witness :
  six_digit_code "123456" = true
  /\ (let w1 := enableTwoFactor (Some demo_user) step_stream Call_ok initial_world in
      let w2 := onVerificationInput "123456" w1 in
      let w3 := verifyAndEnable (Some demo_user) half_stream Call_ok w2 in
      let w4 := checkTwoFactorStatus (Some demo_user) Call_ok w3 in
      w_db w4 !! user_id demo_user
      = Some (mk_row (Some (generateSecret step_stream)) true
                (Some (generateBackupCodes half_stream)))
      /\ isEnabled (w_ui w4) = true /\ showSetup (w_ui w4) = false
      /\ backupCodes (w_ui w4) = generateBackupCodes half_stream).
Proof.
  split; [reflexivity|].
  exact (setup_confirm_then_status demo_user step_stream half_stream "123456"
           initial_world eq_refl).
Defined.

(** X11: after a successful [disableTwoFactor], a successful status
    check reports 2FA disabled, the stored row (if any) is not enabled,
    and no backup codes are displayed. *)
Theorem disable_then_status (u : auth_user) (w : world) :
  let w' := checkTwoFactorStatus (Some u) Call_ok (disableTwoFactor (Some u) Call_ok w) in
  isEnabled (w_ui w') = false /\ row_enabled (w_db w' !! user_id u) = false
  /\ backupCodes (w_ui w') = [].
Proof.
  cbv zeta; cbn; unfold db_select_is_enabled, db_update_disable.
  rewrite lookup_alter_eq.
  destruct (w_db w !! user_id u); repeat split.
Qed.

(** ** Edge behaviour *)

(** X12: when the setup write fails, the table is unchanged, yet the
    setup form is opened with the QR code of the new secret (which is not
    stored) and a "Setup failed" error toast is shown. *)
Theorem enable_failure_still_shows_qr (u : auth_user) (rnd : random_stream) (m : string)
  (w : world) :
  let w' := enableTwoFactor (Some u) rnd (Call_error m) w in
  w_db w' = w_db w /\ showSetup (w_ui w') = true
  /\ qrCodeUrl (w_ui w') = generateQRCode (user_email u) (generateSecret rnd)
  /\ isEnabling (w_ui w') = false
  /\ w_toasts w' = mk_toast Toast_destructive "Setup failed" m :: w_toasts w.
Proof. cbv zeta; cbn; repeat split. Qed.

(** X13: [verifyAndEnable] does nothing at all (no write, no toast, no
    state change) when no user is signed in or when the code is empty. *)
Theorem verify_noop_signed_out_or_empty (user : option auth_user) (rnd : random_stream)
  (res : call_result) (w : world) :
  (user = None \/ verificationCode (w_ui w) = EmptyString) ->
  verifyAndEnable user rnd res w = w.
Proof.
  intros [-> | Hc]; [reflexivity|].
  destruct user as [u|]; [|reflexivity].
  unfold verifyAndEnable; rewrite Hc; reflexivity.
Qed.

Lemma verify_noop_signed_out_or_empty_witness :
  (Some demo_user = None \/ verificationCode (w_ui (world_with initial_ui (Some pending_row)))
                             = EmptyString)
  /\ verifyAndEnable (Some demo_user) step_stream Call_ok
       (world_with initial_ui (Some pending_row))
     = world_with initial_ui (Some pending_row).
Proof.
  split; [right; reflexivity|].
  apply verify_noop_signed_out_or_empty; right; reflexivity.
Defined.

(** X14: a backup code is the empty string exactly when the random draw
    is zero ([Math.random()] returned 0, printed "0").  For every other
    draw the round-up carry of the digit loop never reaches the integer
    part (which would print "1"), so at least one fraction digit is kept
    and the code has at least one character. *)
Theorem backup_code_empty_iff (k : Z) :
  backup_code k = EmptyString <-> draw_bits k = 0.
Proof.
  unfold backup_code, number_toString36; cbv zeta.
  destruct (Z.eq_dec (draw_bits k) 0) as [E|E].
  - rewrite E; split; [reflexivity | intros _; vm_compute; reflexivity].
  - split; [|intros; contradiction].
    intros H; exfalso.
    pose proof (draw_bits_range k) as Hv; unfold mantissa_bits in Hv.
    remember (draw_bits k) as v eqn:Ev.
    assert (Hl0 : 0 <= Z.log2 v) by apply Z.log2_nonneg.
    assert (Hl1 : Z.log2 v < 52) by (apply Z.log2_lt_pow2; lia).
    assert (Hl2 : 2 ^ Z.log2 v <= v) by (apply Z.log2_spec; lia).
    assert (Hl3 : 2 ^ Z.log2 v <= 2 ^ 51) by (apply Z.pow_le_mono_r; lia).
    assert (Hdelta : radix36_delta v = 2 ^ 23 * 2 ^ Z.log2 v).
    { unfold radix36_delta; rewrite (proj2 (Z.eqb_neq v 0) E).
      rewrite <- Z.pow_add_r by lia; f_equal; unfold dbl_scale; lia. }
    assert (Hok : all_z_ok (v * 2 ^ (dbl_scale - 52)) (radix36_delta v)).
    { rewrite Hdelta; unfold all_z_ok, frac_ok, dbl_one, dbl_scale.
      change (128 - 52) with 76.
      split; [split; [lia | apply Z.divide_factor_r]|].
      split; [lia | left; lia]. }
    rewrite (proj2 (Z.leb_le _ _) (proj2 (proj1 (proj2 Hok)))) in H.
    pose proof (radix_fraction_loop_no_carry 1100 _ _ [] Hok (List.Forall_nil _)) as Hnc.
    pose proof (radix_fraction_loop_nil 1100 (v * 2 ^ (dbl_scale - 52)) (radix36_delta v) [])
      as Hnil.
    destruct (radix_fraction_loop 1100 _ _ []) as [buf carried].
    simpl in Hnc, Hnil; subst carried.
    destruct buf as [|d ds].
    { destruct (Hnil eq_refl) as [Hc | [Hc _]]; discriminate. }
    change (js_toUpperCase (js_substring_2_10
              (String "0" (String "." (string_of_list_ascii
                 (map digit36_char (rev (d :: ds)))))))
            = EmptyString) in H.
    destruct (rev (d :: ds)) as [|x xs] eqn:Er.
    + apply (f_equal (@length Z)) in Er; rewrite length_rev in Er; discriminate.
    + simpl in H; discriminate.
Qed.

(** X16: for every draw, the digit loop of [Math.random().toString(36)]
    ends by itself within 22 rounds: the 1100 characters of fraction
    buffer never cut it short, and at most 22 digits are computed. *)
Theorem toString36_loop_bounded (k : Z) :
  let fraction := draw_bits k * 2 ^ (dbl_scale - 52) in
  let delta := radix36_delta (draw_bits k) in
  radix_fraction_loop 1100 fraction delta [] = radix_fraction_loop 22 fraction delta [].
Proof.
  cbv zeta.
  pose proof (draw_bits_range k) as Hv; unfold mantissa_bits in Hv.
  destruct (Z.eq_dec (draw_bits k) 0) as [E|E].
  { rewrite E; vm_compute; reflexivity. }
  assert (Hf : frac_ok (draw_bits k * 2 ^ (dbl_scale - 52))).
  { unfold frac_ok, dbl_one, dbl_scale; change (128 - 52) with 76.
    split; [lia | apply Z.divide_factor_r]. }
  assert (Hd : 2 ^ 23 <= radix36_delta (draw_bits k)).
  { unfold radix36_delta; rewrite (proj2 (Z.eqb_neq _ 0) E).
    apply Z.pow_le_mono_r; [lia|].
    pose proof (Z.log2_nonneg (draw_bits k)); unfold dbl_scale; lia. }
  apply (radix_fraction_loop_fuel 21 1078 _ _ [] Hf); [lia|].
  unfold dbl_one, dbl_scale; cbn [Z.of_nat Pos.of_succ_nat]; lia.
Qed.

(** X15: when the disable write fails, the table and the displayed
    status and backup codes are unchanged, [isDisabling] is cleared and a
    "Failed to disable 2FA" error toast is shown. *)
Theorem disable_failure_keeps_state (u : auth_user) (m : string) (w : world) :
  let w' := disableTwoFactor (Some u) (Call_error m) w in
  w_db w' = w_db w /\ isEnabled (w_ui w') = isEnabled (w_ui w)
  /\ backupCodes (w_ui w') = backupCodes (w_ui w) /\ isDisabling (w_ui w') = false
  /\ w_toasts w' = mk_toast Toast_destructive "Failed to disable 2FA" m :: w_toasts w.
Proof. cbv zeta; cbn; repeat split. Qed.
